(** * Decoupled U-statistic sums: a shallow embedding of [decoupling_core.cpp]

    The two entry points of [src/src/decoupling_core.cpp],
    [compute_decoupled_sum] and [compute_multiple_decoupled_sums], are
    written here as Rocq functions.

    - A C++ [double] is a binary64 float ([PrimFloat.float]); [+] and [/] are
      [PrimFloat.add] and [PrimFloat.div].
    - A C++ [int] is a [Z] in the range [INT_MIN .. INT_MAX]; its arithmetic
      wraps around ([wrap_int]), and reading a list size into an [int]
      narrows it ([int_of_size]).
    - An [Rcpp::List] is a [list Item]; [x[i]] is a lookup that can miss.
    - The kernel is an R function, taken here as a function of its two
      arguments: it is called on two items and either yields a [double] or
      raises.  Every call is recorded, with its index pair, in the trace the
      computation carries, and a raised error ends the computation as a C++
      exception does. *)

From Stdlib Require Import ZArith List Lia Bool PrimFloat Uint63.
From Stdlib Require Import Permutation Sorted FinFun QArith Qfield Lqa.
Import ListNotations.
Open Scope Z_scope.

(** ** C++ scalars *)

Definition INT_MAX : Z := 2147483647.
Definition INT_MIN : Z := -2147483648.

(** Two's-complement reduction of an integer to an [int]. *)
Definition wrap_int (z : Z) : Z := (z + 2 ^ 31) mod 2 ^ 32 - 2 ^ 31.

(** [c++] and [i + 1] on [int]. *)
Definition int_incr (c : Z) : Z := wrap_int (c + 1).

(** [int n = x.size()]: the size of a list read into an [int]. *)
Definition int_of_size (len : nat) : Z := wrap_int (Z.of_nat len).

(** A C++ [double]. *)
Abbreviation double := float.

(** The conversion of an integer to [double] (exact below [2^53]). *)
Definition double_of_Z (z : Z) : double :=
  if z <? 0 then PrimFloat.opp (PrimFloat.of_uint63 (Uint63.of_Z (- z)))
  else PrimFloat.of_uint63 (Uint63.of_Z z).

(** The conversion of the [int] operand in [total / count]. *)
Definition double_of_int (c : Z) : double := double_of_Z c.

(** ** Outcomes, traces and the monad that threads them *)

(** A kernel invocation [kernel_function(x[i], y[j])], named by [(i, j)]. *)
Definition call : Type := (Z * Z)%type.

Section Outcome.

(** What a failing kernel call raises (an R condition). *)
Variable Err : Type.

Inductive failure : Type :=
| KernelFailure (e : Err)   (* raised by kernel_function or by as<double> *)
| OutOfBounds               (* an element read past the end of a List *)
| NegativeLength.           (* a vector allocated with a negative size *)

Inductive outcome (A : Type) : Type :=
| Returned (a : A)
| Raised (f : failure).

(** A computation: the kernel calls it made, in order, and how it ended. *)
Definition M (A : Type) : Type := (list call * outcome A)%type.

Definition calls {A} (m : M A) : list call := fst m.
Definition result {A} (m : M A) : outcome A := snd m.

Definition ret {A} (a : A) : M A := ([], Returned A a).
Definition raise {A} (f : failure) : M A := ([], Raised A f).

Definition bind {A B} (m : M A) (k : A -> M B) : M B :=
  match m with
  | (t, Returned _ a) => let (t', r) := k a in (t ++ t', r)
  | (t, Raised _ f) => (t, Raised B f)
  end.

End Outcome.

Arguments KernelFailure {Err} e.
Arguments OutOfBounds {Err}.
Arguments NegativeLength {Err}.
Arguments Returned {Err A} a.
Arguments Raised {Err A} f.
Arguments calls {Err A} m.
Arguments result {Err A} m.
Arguments ret {Err A} a.
Arguments raise {Err A} f.
Arguments bind {Err A B} m k.

Notation "x <- m ;; k" := (bind m (fun x => k))
  (at level 61, m at next level, right associativity).

(** What one kernel call gives back. *)
Inductive kernel_result (Err : Type) : Type :=
| Value (v : double)
| Fails (e : Err).

Arguments Value {Err} v.
Arguments Fails {Err} e.

(** ** Lists, vectors and loops *)

(** [l[i]] on an [Rcpp::List]. *)
Definition List_get {A} (l : list A) (i : Z) : option A :=
  if i <? 0 then None else nth_error l (Z.to_nat i).

(** [v[b] = a] on a vector; [b] is within the vector wherever it is used. *)
Fixpoint vector_set {A} (v : list A) (b : nat) (a : A) : list A :=
  match v, b with
  | [], _ => []
  | _ :: v', O => a :: v'
  | c :: v', S b' => c :: vector_set v' b' a
  end.

(** [for (int i = ...; ...; i++) body]: [iters] rounds from [i]. *)
Fixpoint for_loop {Err St} (iters : nat) (i : Z)
    (body : Z -> St -> M Err St) (s : St) : M Err St :=
  match iters with
  | O => ret s
  | S k => s' <- body i s ;; for_loop k (int_incr i) body s'
  end.

(** [for (int i = lo; i < hi; i++) body]: the test [i < hi] holds for
    [hi - lo] rounds when [lo < hi], and for none otherwise ([hi] is an
    [int], so [i] reaches it without wrapping). *)
Definition for_range {Err St} (lo hi : Z)
    (body : Z -> St -> M Err St) (s : St) : M Err St :=
  for_loop (Z.to_nat (hi - lo)) lo body s.

(** ** The program *)

(** The running [total] and [count] of [compute_decoupled_sum]. *)
Record accumulator : Type := { total : double; count : Z }.

Section Program.

(** An element of an [Rcpp::List] (any R object). *)
Variable Item : Type.
Variable Err : Type.

(** [as<double>(kernel_function(x[i], y[j]))] *)
Definition call_kernel (x y : list Item)
    (kernel_function : Item -> Item -> kernel_result Err) (i j : Z)
    : M Err double :=
  match List_get x i, List_get y j with
  | Some a, Some b =>
      match kernel_function a b with
      | Value v => ([(i, j)], Returned v)
      | Fails e => ([(i, j)], Raised (KernelFailure e))
      end
  | _, _ => raise OutOfBounds
  end.

(** [double value = ...; total += value; count++;] *)
Definition accumulate (x y : list Item)
    (kernel_function : Item -> Item -> kernel_result Err) (i j : Z)
    (s : accumulator) : M Err accumulator :=
  value <- call_kernel x y kernel_function i j ;;
  ret {| total := PrimFloat.add (total s) value;
         count := int_incr (count s) |}.

Definition compute_decoupled_sum (x y : list Item)
    (kernel_function : Item -> Item -> kernel_result Err)
    (symmetric : bool) : M Err double :=
  let n := int_of_size (length x) in
  let s0 := {| total := 0%float; count := 0 |} in
  if symmetric then
    s <- for_range 0 n (fun i s =>
           for_range (int_incr i) n (fun j s =>
             accumulate x y kernel_function i j s) s) s0 ;;
    ret (PrimFloat.div (total s) (double_of_int (count s)))
  else
    s <- for_range 0 n (fun i s =>
           for_range 0 n (fun j s =>
             if negb (i =? j) then accumulate x y kernel_function i j s
             else ret s) s) s0 ;;
    ret (PrimFloat.div (total s) (double_of_int (count s))).

(** [NumericVector results(B)]: [B] zeros. *)
Definition NumericVector_new (B : Z) : M Err (list double) :=
  if B <? 0 then raise NegativeLength
  else ret (repeat 0%float (Z.to_nat B)).

(** The body of the batch loop:
    [List y = y_list[b]; results[b] = compute_decoupled_sum(x, y, ...);] *)
Definition batch_step (x : list Item) (y_list : list (list Item))
    (kernel_function : Item -> Item -> kernel_result Err) (symmetric : bool)
    (b : Z) (results : list double) : M Err (list double) :=
  match List_get y_list b with
  | Some y =>
      v <- compute_decoupled_sum x y kernel_function symmetric ;;
      ret (vector_set results (Z.to_nat b) v)
  | None => raise OutOfBounds
  end.

Definition compute_multiple_decoupled_sums (x : list Item)
    (y_list : list (list Item))
    (kernel_function : Item -> Item -> kernel_result Err)
    (symmetric : bool) : M Err (list double) :=
  let B := int_of_size (length y_list) in
  results <- NumericVector_new B ;;
  for_range 0 B (batch_step x y_list kernel_function symmetric) results.

End Program.

Arguments call_kernel {Item Err} x y kernel_function i j.
Arguments accumulate {Item Err} x y kernel_function i j s.
Arguments compute_decoupled_sum {Item Err} x y kernel_function symmetric.
Arguments NumericVector_new {Err} B.
Arguments batch_step {Item Err} x y_list kernel_function symmetric b results.
Arguments compute_multiple_decoupled_sums {Item Err} x y_list kernel_function symmetric.

(** A kernel that never raises, as the spec's [(Item, Item) -> real]. *)
Definition total_kernel {Item} (Err : Type) (K : Item -> Item -> double)
    : Item -> Item -> kernel_result Err :=
  fun a b => Value (K a b).

(** ** Concrete kernels and inputs *)

(** The kernel [a + b] of the spec's examples, on numeric items. *)
Definition kernel_plus (a b : double) : double := PrimFloat.add a b.

(** The same kernel on integer items. *)
Definition kernel_add (a b : Z) : double := double_of_Z (a + b).

(** A kernel with [K a b = K b a] whose values cancel: [1e16], [-1e16], [1]. *)
Definition kernel_cancel (a b : Z) : double :=
  match Z.min a b, Z.max a b with
  | 0, 1 => 1e16%float
  | 0, 2 => (-1e16)%float
  | _, _ => 1%float
  end.

(** What a kernel of the examples raises. *)
Inductive r_condition : Type := stop_called | not_numeric.

(** A kernel that stops on an item [99] on its right and adds otherwise. *)
Definition kernel_stop_on_99 (a b : Z) : kernel_result r_condition :=
  if b =? 99 then Fails stop_called else Value (double_of_Z (a + b)).

(** A kernel that is [1.0] on the items [(1, 1)] and [0.0] elsewhere, and
    two collections of [n] items on which it is [1.0] at the index pair
    [(0, 1)] only. *)
Definition kernel_spike (a b : Z) : double :=
  if (a =? 1) && (b =? 1) then 1%float else 0%float.

Definition spike_x (n : nat) : list Z := 1 :: repeat 0 (n - 1).
Definition spike_y (n : nat) : list Z := 0 :: 1 :: repeat 0 (n - 2).

(** The collections of the spec's examples. *)
Definition example_x : list double := [1; 2; 3]%float.
Definition example_y : list double := [10; 20; 30]%float.
Definition example_y_long : list double := [10; 20; 30; 40; 50]%float.
Definition example_ones : list double := [1; 1; 1]%float.

(** ** The enumerations the loops walk through *)

(** [lo, lo+1, ...], [k] integers. *)
Fixpoint zrange_from (lo : Z) (k : nat) : list Z :=
  match k with
  | O => []
  | S k' => lo :: zrange_from (lo + 1) k'
  end.

(** The integers [lo <= i < hi], ascending. *)
Definition zrange (lo hi : Z) : list Z := zrange_from lo (Z.to_nat (hi - lo)).

(** Row [i] of the upper triangle: [(i, i+1), ..., (i, n-1)]. *)
Definition upper_row (n i : Z) : list call := map (pair i) (zrange (i + 1) n).

(** Row [i] without its diagonal: [(i, 0), ..., (i, n-1)] less [(i, i)]. *)
Definition off_diagonal_row (n i : Z) : list call :=
  map (pair i) (filter (fun j => negb (i =? j)) (zrange 0 n)).

(** The pairs [0 <= i < j < n], row by row. *)
Definition upper_pairs (n : Z) : list call := flat_map (upper_row n) (zrange 0 n).

(** The pairs [0 <= i, j < n] with [i <> j], row by row. *)
Definition off_diagonal_pairs (n : Z) : list call :=
  flat_map (off_diagonal_row n) (zrange 0 n).

(** The enumeration of a mode. *)
Definition pairs_of (symmetric : bool) (n : Z) : list call :=
  if symmetric then upper_pairs n else off_diagonal_pairs n.

(** Lexicographic order on index pairs: outer index first. *)
Definition call_lt (p q : call) : Prop :=
  fst p < fst q \/ (fst p = fst q /\ snd p < snd q).

(** The constraint a mode puts on an index pair, for [n] items. *)
Definition in_mode (symmetric : bool) (n : Z) (p : call) : Prop :=
  0 <= fst p < n /\ 0 <= snd p < n /\
  if symmetric then fst p < snd p else fst p <> snd p.

(** [body] applied to each element of [l] in turn. *)
Fixpoint foreach {Err A St} (l : list A) (body : A -> St -> M Err St) (s : St)
    : M Err St :=
  match l with
  | [] => ret s
  | a :: l' => s' <- body a s ;; foreach l' body s'
  end.

(** The loop body run over a list of index pairs. *)
Definition accumulate_all {Item Err} (x y : list Item)
    (kernel_function : Item -> Item -> kernel_result Err)
    (ps : list call) (s : accumulator) : M Err accumulator :=
  foreach ps (fun p s' => accumulate x y kernel_function (fst p) (snd p) s') s.

(** [total / count] *)
Definition mean_of {Err} (s : accumulator) : M Err double :=
  ret (PrimFloat.div (total s) (double_of_int (count s))).

(** The accumulators before the loops. *)
Definition start : accumulator := {| total := 0%float; count := 0 |}.

(** A sum of doubles, added left to right from [0.0] as [total +=] does. *)
Definition double_sum (vs : list double) : double :=
  fold_left PrimFloat.add vs 0%float.

(** [v] is the kernel [K] at the items of [x] and [y] that [p] points to. *)
Definition evaluates {Item} (K : Item -> Item -> double) (x y : list Item)
    (p : call) (v : double) : Prop :=
  exists a b, List_get x (fst p) = Some a /\ List_get y (snd p) = Some b /\
              v = K a b.

(** The kernel call at [p] is made and yields [v]. *)
Definition yields {Item Err} (x y : list Item)
    (kernel_function : Item -> Item -> kernel_result Err)
    (p : call) (v : double) : Prop :=
  call_kernel x y kernel_function (fst p) (snd p) = ([p], Returned v).

(** The kernel value at [p], as a function of [p]; [0.0] stands in where an
    index of [p] is out of range, which no statement below relies on. *)
Definition kernel_value {Item} (K : Item -> Item -> double) (x y : list Item)
    (p : call) : double :=
  match List_get x (fst p), List_get y (snd p) with
  | Some a, Some b => K a b
  | _, _ => 0%float
  end.

(** The index pair with its two indices exchanged. *)
Definition swap (p : call) : call := (snd p, fst p).

(** A sum in exact rational arithmetic, and the exact quotient of the sum of
    the numbers that [phi] reads off the doubles [vs] by the pair counter
    [c], the integer that [total / count] divides by. *)
Definition Qsum (qs : list Q) : Q := fold_right Qplus 0%Q qs.

Definition exact_mean (phi : double -> Q) (vs : list double) (c : Z) : Q :=
  (Qsum (map phi vs) / inject_Z c)%Q.

(** [compute_decoupled_sum x y ...] makes the calls [fst r] and returns [snd r]. *)
Definition returns_as {Item Err} (x : list Item)
    (kernel_function : Item -> Item -> kernel_result Err) (symmetric : bool)
    (y : list Item) (r : list call * double) : Prop :=
  compute_decoupled_sum x y kernel_function symmetric = (fst r, Returned (snd r)).

(** The kernel with its two arguments exchanged. *)
Definition transpose {Item} (K : Item -> Item -> double) : Item -> Item -> double :=
  fun a b => K b a.

(** The number of index pairs a mode enumerates over [n] items. *)
Definition pair_count (symmetric : bool) (n : Z) : Z :=
  if symmetric then n * (n - 1) / 2 else n * (n - 1).

(** * Properties *)

(** ** [int] arithmetic *)

Lemma wrap_int_range z : INT_MIN <= wrap_int z <= INT_MAX.
Proof.
  unfold wrap_int, INT_MIN, INT_MAX.
  pose proof (Z.mod_pos_bound (z + 2 ^ 31) (2 ^ 32) ltac:(lia)). lia.
Qed.

Lemma wrap_int_id z : INT_MIN <= z <= INT_MAX -> wrap_int z = z.
Proof.
  unfold wrap_int, INT_MIN, INT_MAX. intros H.
  rewrite Z.mod_small by lia. lia.
Qed.

Lemma wrap_int_le z : 0 <= z -> wrap_int z <= z.
Proof.
  unfold wrap_int. intros H.
  pose proof (Z.mod_le (z + 2 ^ 31) (2 ^ 32) ltac:(lia) ltac:(lia)). lia.
Qed.

Lemma int_incr_id i : INT_MIN <= i < INT_MAX -> int_incr i = i + 1.
Proof. intros H. unfold int_incr. apply wrap_int_id. lia. Qed.

Lemma int_of_size_range len : INT_MIN <= int_of_size len <= INT_MAX.
Proof. apply wrap_int_range. Qed.

Lemma int_of_size_le len : int_of_size len <= Z.of_nat len.
Proof. apply wrap_int_le. lia. Qed.

Lemma int_of_size_id len :
  Z.of_nat len <= INT_MAX -> int_of_size len = Z.of_nat len.
Proof. intros H. apply wrap_int_id. unfold INT_MIN. lia. Qed.

(** ** Monad laws *)

Section Laws.

Context {Err : Type}.

Lemma bind_ret_l {A B} (a : A) (k : A -> M Err B) : bind (ret a) k = k a.
Proof. unfold bind, ret. destruct (k a). reflexivity. Qed.

Lemma bind_ret_r {A} (m : M Err A) : bind m ret = m.
Proof.
  destruct m as [t [a | f]]; simpl; [rewrite app_nil_r |]; reflexivity.
Qed.

Lemma bind_assoc {A B C} (m : M Err A) (k : A -> M Err B) (h : B -> M Err C) :
  bind (bind m k) h = bind m (fun a => bind (k a) h).
Proof.
  destruct m as [t [a | f]]; simpl; [| reflexivity].
  destruct (k a) as [t' [b | f]]; simpl; [| reflexivity].
  destruct (h b) as [t'' r]. rewrite app_assoc. reflexivity.
Qed.

Lemma bind_returned {A B} (t : list call) (a : A) (k : A -> M Err B) :
  bind (t, Returned a) k = (t ++ calls (k a), result (k a)).
Proof. simpl. destruct (k a). reflexivity. Qed.

Lemma bind_raised {A B} (t : list call) (f : failure Err) (k : A -> M Err B) :
  bind (t, @Raised Err A f) k = (t, Raised f).
Proof. reflexivity. Qed.

End Laws.

(** ** Ranges *)

Lemma in_zrange_from k : forall lo j,
  In j (zrange_from lo k) <-> lo <= j < lo + Z.of_nat k.
Proof.
  induction k as [| k IH]; intros lo j; simpl.
  - lia.
  - rewrite IH. lia.
Qed.

Lemma in_zrange lo hi j : In j (zrange lo hi) <-> lo <= j < hi.
Proof. unfold zrange. rewrite in_zrange_from. lia. Qed.

Lemma zrange_from_length k : forall lo, length (zrange_from lo k) = k.
Proof. induction k; intros lo; simpl; [| rewrite IHk]; reflexivity. Qed.

Lemma zrange_length lo hi : length (zrange lo hi) = Z.to_nat (hi - lo).
Proof. apply zrange_from_length. Qed.

Lemma zrange_nil lo hi : hi <= lo -> zrange lo hi = [].
Proof.
  intros H. unfold zrange. replace (Z.to_nat (hi - lo)) with O by lia.
  reflexivity.
Qed.

Lemma zrange_cons lo hi : lo < hi -> zrange lo hi = lo :: zrange (lo + 1) hi.
Proof.
  intros H. unfold zrange.
  replace (Z.to_nat (hi - lo)) with (S (Z.to_nat (hi - (lo + 1)))) by lia.
  reflexivity.
Qed.

Lemma zrange_from_app k1 : forall lo k2,
  zrange_from lo (k1 + k2) = zrange_from lo k1 ++ zrange_from (lo + Z.of_nat k1) k2.
Proof.
  induction k1 as [| k1 IH]; intros lo k2.
  - simpl. f_equal. lia.
  - cbn [Nat.add zrange_from app]. rewrite IH. do 3 f_equal. lia.
Qed.

Lemma zrange_split lo mid hi :
  lo <= mid <= hi -> zrange lo hi = zrange lo mid ++ zrange mid hi.
Proof.
  intros H. unfold zrange.
  replace (Z.to_nat (hi - lo))
    with (Z.to_nat (mid - lo) + Z.to_nat (hi - mid))%nat by lia.
  rewrite zrange_from_app. do 2 f_equal. lia.
Qed.

(** Dropping [i] from a range that holds it leaves the two sides of [i]. *)
Lemma zrange_without lo hi i :
  lo <= i < hi ->
  filter (fun j => negb (i =? j)) (zrange lo hi) = zrange lo i ++ zrange (i + 1) hi.
Proof.
  intros H.
  rewrite (zrange_split lo i hi) by lia.
  rewrite (zrange_cons i hi) by lia.
  rewrite filter_app. cbn [filter]. rewrite Z.eqb_refl. cbn [negb].
  f_equal; apply forallb_filter_id; apply forallb_forall; intros j Hj;
    apply in_zrange in Hj; apply negb_true_iff; apply Z.eqb_neq; lia.
Qed.

(** ** Loops as traversals *)

Section Loops.

Context {Err St : Type}.
Implicit Types (body : Z -> St -> M Err St) (s : St).

Lemma bind_ext {A B} (m : M Err A) (k k' : A -> M Err B) :
  (forall a, k a = k' a) -> bind m k = bind m k'.
Proof.
  intros H. destruct m as [t [a | f]]; simpl; [rewrite H |]; reflexivity.
Qed.

Lemma for_loop_foreach k : forall lo body s,
  INT_MIN <= lo -> lo + Z.of_nat k <= INT_MAX ->
  for_loop k lo body s = foreach (zrange_from lo k) body s.
Proof.
  induction k as [| k IH]; intros lo body s Hlo Hhi; [reflexivity |].
  cbn [for_loop zrange_from foreach].
  rewrite int_incr_id by lia.
  apply bind_ext. intros s'. apply IH; lia.
Qed.

Lemma for_range_foreach lo hi body s :
  INT_MIN <= lo -> hi <= INT_MAX ->
  for_range lo hi body s = foreach (zrange lo hi) body s.
Proof.
  intros Hlo Hhi. unfold for_range, zrange.
  destruct (Z_le_gt_dec hi lo) as [Hle | Hgt].
  - replace (Z.to_nat (hi - lo)) with O by lia. reflexivity.
  - apply for_loop_foreach; lia.
Qed.

Lemma foreach_ext {A} (l : list A) (body body' : A -> St -> M Err St) : forall s,
  (forall a s', In a l -> body a s' = body' a s') ->
  foreach l body s = foreach l body' s.
Proof.
  induction l as [| a l IH]; intros s H; [reflexivity |].
  cbn [foreach]. rewrite (H a s) by (left; reflexivity).
  apply bind_ext. intros s'. apply IH. intros b s'' Hb. apply H. right. exact Hb.
Qed.

Lemma foreach_app {A} (l1 l2 : list A) (body : A -> St -> M Err St) : forall s,
  foreach (l1 ++ l2) body s = bind (foreach l1 body s) (foreach l2 body).
Proof.
  induction l1 as [| a l1 IH]; intros s; cbn [app foreach].
  - rewrite bind_ret_l. reflexivity.
  - rewrite bind_assoc. apply bind_ext. intros s'. apply IH.
Qed.

Lemma foreach_map {A B} (f : A -> B) (l : list A) (body : B -> St -> M Err St) :
  forall s, foreach (map f l) body s = foreach l (fun a => body (f a)) s.
Proof.
  induction l as [| a l IH]; intros s; [reflexivity |].
  cbn [map foreach]. apply bind_ext. intros s'. apply IH.
Qed.

Lemma foreach_filter {A} (keep : A -> bool) (l : list A)
    (body : A -> St -> M Err St) : forall s,
  foreach l (fun a s' => if keep a then body a s' else ret s') s
  = foreach (filter keep l) body s.
Proof.
  induction l as [| a l IH]; intros s; [reflexivity |].
  cbn [filter foreach]. destruct (keep a); cbn [foreach].
  - apply bind_ext. intros s'. apply IH.
  - rewrite bind_ret_l. apply IH.
Qed.

Lemma foreach_flat_map {A B} (f : A -> list B) (l : list A)
    (body : B -> St -> M Err St) : forall s,
  foreach l (fun a s' => foreach (f a) body s') s = foreach (flat_map f l) body s.
Proof.
  induction l as [| a l IH]; intros s; [reflexivity |].
  cbn [flat_map foreach]. rewrite foreach_app.
  apply bind_ext. intros s'. apply IH.
Qed.

End Loops.

(** ** [compute_decoupled_sum] walks the enumeration of its mode *)

Section Aggregate.

Context {Item Err : Type}.
Variables (x y : list Item) (kernel_function : Item -> Item -> kernel_result Err).

Lemma upper_row_loop n i s :
  0 <= i < n -> n <= INT_MAX ->
  for_range (int_incr i) n
    (fun j s' => accumulate x y kernel_function i j s') s
  = accumulate_all x y kernel_function (upper_row n i) s.
Proof.
  intros Hi Hn. unfold INT_MAX in Hn.
  rewrite int_incr_id by (unfold INT_MIN, INT_MAX; lia).
  rewrite for_range_foreach by (unfold INT_MIN, INT_MAX; lia).
  unfold accumulate_all, upper_row. rewrite foreach_map. reflexivity.
Qed.

Lemma off_diagonal_row_loop n i s :
  n <= INT_MAX ->
  for_range 0 n
    (fun j s' => if negb (i =? j) then accumulate x y kernel_function i j s'
                 else ret s') s
  = accumulate_all x y kernel_function (off_diagonal_row n i) s.
Proof.
  intros Hn.
  rewrite for_range_foreach by (unfold INT_MIN; lia).
  unfold accumulate_all, off_diagonal_row.
  rewrite foreach_map.
  rewrite <- (foreach_filter (fun j => negb (i =? j))). reflexivity.
Qed.

(** The program is the loop body run over [pairs_of], then the division. *)
Lemma compute_decoupled_sum_eq symmetric :
  compute_decoupled_sum x y kernel_function symmetric
  = bind (accumulate_all x y kernel_function
            (pairs_of symmetric (int_of_size (length x))) start)
         mean_of.
Proof.
  unfold compute_decoupled_sum.
  pose proof (int_of_size_range (length x)) as [_ Hn].
  set (n := int_of_size (length x)) in *.
  destruct symmetric; cbn [pairs_of]; fold start;
    (apply (f_equal (fun m => bind m mean_of)));
    rewrite for_range_foreach by (unfold INT_MIN; lia).
  - unfold accumulate_all at 1, upper_pairs. rewrite <- foreach_flat_map.
    apply foreach_ext. intros i s Hi. apply in_zrange in Hi.
    apply upper_row_loop; lia.
  - unfold accumulate_all at 1, off_diagonal_pairs. rewrite <- foreach_flat_map.
    apply foreach_ext. intros i s Hi. apply off_diagonal_row_loop; lia.
Qed.

End Aggregate.

(** ** What a run over a list of pairs does *)

Lemma wrap_int_incr a : wrap_int (wrap_int a + 1) = wrap_int (a + 1).
Proof.
  unfold wrap_int.
  replace ((a + 2 ^ 31) mod 2 ^ 32 - 2 ^ 31 + 1 + 2 ^ 31)
    with ((a + 2 ^ 31) mod 2 ^ 32 + 1) by lia.
  rewrite Zplus_mod_idemp_l. do 2 f_equal. lia.
Qed.

(** [m] increments of an [int] counter that starts at [0]. *)
Lemma count_iter m : Nat.iter m int_incr 0 = wrap_int (Z.of_nat m).
Proof.
  induction m as [| m IH]; [reflexivity |].
  rewrite Nat.iter_succ, IH. unfold int_incr. rewrite wrap_int_incr.
  f_equal. lia.
Qed.

Section Runs.

Context {Item Err : Type}.
Variables (x y : list Item) (kernel_function : Item -> Item -> kernel_result Err).

Lemma call_kernel_cases (p : call) :
  (exists a b v, List_get x (fst p) = Some a /\ List_get y (snd p) = Some b /\
     kernel_function a b = Value v /\
     call_kernel x y kernel_function (fst p) (snd p) = ([p], Returned v))
  \/ (exists a b e, List_get x (fst p) = Some a /\ List_get y (snd p) = Some b /\
     kernel_function a b = Fails e /\
     call_kernel x y kernel_function (fst p) (snd p)
     = ([p], Raised (KernelFailure e)))
  \/ ((List_get x (fst p) = None \/ List_get y (snd p) = None) /\
     call_kernel x y kernel_function (fst p) (snd p) = ([], Raised OutOfBounds)).
Proof.
  destruct p as [i j]. unfold call_kernel. cbn [fst snd].
  destruct (List_get x i) as [a |]; [| right; right; split; [left |]; reflexivity].
  destruct (List_get y j) as [b |]; [| right; right; split; [right |]; reflexivity].
  destruct (kernel_function a b) as [v | e] eqn:Ek.
  - left. exists a, b, v. repeat split; assumption || reflexivity.
  - right; left. exists a, b, e. repeat split; assumption || reflexivity.
Qed.

Lemma accumulate_all_cons (p : call) (ps : list call) s :
  accumulate_all x y kernel_function (p :: ps) s
  = bind (accumulate x y kernel_function (fst p) (snd p) s)
         (accumulate_all x y kernel_function ps).
Proof. reflexivity. Qed.

Lemma accumulate_yields (p : call) v s :
  yields x y kernel_function p v ->
  accumulate x y kernel_function (fst p) (snd p) s
  = ([p], Returned {| total := PrimFloat.add (total s) v;
                      count := int_incr (count s) |}).
Proof. unfold yields, accumulate. intros ->. reflexivity. Qed.

Lemma accumulate_raises (p : call) t f s :
  call_kernel x y kernel_function (fst p) (snd p) = (t, Raised f) ->
  accumulate x y kernel_function (fst p) (snd p) s = (t, Raised f).
Proof. unfold accumulate. intros ->. reflexivity. Qed.

(** Every call yields: all pairs are visited, and the accumulators hold the
    left-to-right sum and the wrapped number of increments. *)
Lemma accumulate_all_returns (ps : list call) vs : forall s,
  Forall2 (yields x y kernel_function) ps vs ->
  accumulate_all x y kernel_function ps s
  = (ps, Returned {| total := fold_left PrimFloat.add vs (total s);
                     count := Nat.iter (length ps) int_incr (count s) |}).
Proof.
  intros s H. revert s.
  induction H as [| p v ps vs Hp _ IH]; intros s.
  - destruct s. reflexivity.
  - rewrite accumulate_all_cons, (accumulate_yields _ _ _ Hp), bind_returned.
    rewrite IH. cbn [calls result fst snd total count app fold_left length].
    rewrite Nat.iter_succ_r. reflexivity.
Qed.

(** The first call that raises ends the run: nothing after it is visited. *)
Lemma accumulate_all_raises (pre : list call) (p : call) (rest : list call)
    vs t f : forall s,
  Forall2 (yields x y kernel_function) pre vs ->
  call_kernel x y kernel_function (fst p) (snd p) = (t, Raised f) ->
  accumulate_all x y kernel_function (pre ++ p :: rest) s = (pre ++ t, Raised f).
Proof.
  intros s H Hp. revert s.
  induction H as [| q v qs vs Hq _ IH]; intros s.
  - cbn [app]. rewrite accumulate_all_cons, (accumulate_raises _ _ _ _ Hp).
    reflexivity.
  - cbn [app]. rewrite accumulate_all_cons, (accumulate_yields _ _ _ Hq).
    rewrite bind_returned, IH. reflexivity.
Qed.

(** A list of pairs either yields throughout or has a first call that raises. *)
Lemma yields_or_raises (ps : list call) :
  (exists vs, Forall2 (yields x y kernel_function) ps vs)
  \/ (exists (pre : list call) (p : call) (rest : list call) vs t f,
        ps = pre ++ p :: rest /\ Forall2 (yields x y kernel_function) pre vs /\
        call_kernel x y kernel_function (fst p) (snd p) = (t, Raised f) /\
        (t = [p] \/ t = [])).
Proof.
  induction ps as [| p ps IH].
  - left. exists []. constructor.
  - destruct (call_kernel_cases p) as
      [(a & b & v & _ & _ & _ & Hv) | [(a & b & e & _ & _ & _ & He) | [_ Ho]]].
    + destruct IH as [[vs Hvs] | (pre & q & rest & vs & t & f & -> & Hpre & Hq & Ht)].
      * left. exists (v :: vs). constructor; assumption.
      * right. exists (p :: pre), q, rest, (v :: vs), t, f.
        repeat split; try assumption. constructor; assumption.
    + right. exists [], p, ps, [], [p], (KernelFailure e).
      repeat split; try assumption; [constructor | left; reflexivity].
    + right. exists [], p, ps, [], [], OutOfBounds.
      repeat split; try assumption; [constructor | right; reflexivity].
Qed.

(** The calls made are an initial segment of the list walked. *)
Lemma accumulate_all_prefix (ps : list call) s :
  exists rest, ps = calls (accumulate_all x y kernel_function ps s) ++ rest.
Proof.
  destruct (yields_or_raises ps)
    as [[vs Hvs] | (pre & p & rest & vs & t & f & -> & Hpre & Hp & Ht)].
  - rewrite (accumulate_all_returns _ _ _ Hvs). exists []. cbn.
    rewrite app_nil_r. reflexivity.
  - rewrite (accumulate_all_raises _ _ rest _ _ _ _ Hpre Hp). cbn [calls fst].
    destruct Ht as [-> | ->].
    + exists rest. rewrite <- app_assoc. reflexivity.
    + exists (p :: rest). rewrite app_nil_r. reflexivity.
Qed.

End Runs.

(** ** The enumerations: members, order, size *)

Lemma in_upper_pairs n p : In p (upper_pairs n) <-> 0 <= fst p < snd p /\ snd p < n.
Proof.
  unfold upper_pairs, upper_row. rewrite in_flat_map. split.
  - intros (i & Hi & Hp). apply in_zrange in Hi. apply in_map_iff in Hp.
    destruct Hp as (j & <- & Hj). apply in_zrange in Hj. cbn. lia.
  - intros H. destruct p as [i j]. cbn in H. exists i. split.
    + apply in_zrange. lia.
    + apply in_map. apply in_zrange. lia.
Qed.

Lemma in_off_diagonal_pairs n p :
  In p (off_diagonal_pairs n)
  <-> 0 <= fst p < n /\ 0 <= snd p < n /\ fst p <> snd p.
Proof.
  unfold off_diagonal_pairs, off_diagonal_row. rewrite in_flat_map. split.
  - intros (i & Hi & Hp). apply in_zrange in Hi. apply in_map_iff in Hp.
    destruct Hp as (j & <- & Hj). apply filter_In in Hj. destruct Hj as [Hj Hne].
    apply in_zrange in Hj. apply negb_true_iff, Z.eqb_neq in Hne. cbn. lia.
  - intros H. destruct p as [i j]. cbn in H. exists i. split.
    + apply in_zrange. lia.
    + apply in_map. apply filter_In. split; [apply in_zrange; lia |].
      apply negb_true_iff, Z.eqb_neq. lia.
Qed.

Lemma in_pairs_of symmetric n p : In p (pairs_of symmetric n) <-> in_mode symmetric n p.
Proof.
  unfold in_mode. destruct symmetric; cbn [pairs_of].
  - rewrite in_upper_pairs. lia.
  - rewrite in_off_diagonal_pairs. lia.
Qed.

Section Sortedness.

Context {A : Type} (R : A -> A -> Prop).

Lemma StronglySorted_append (l1 l2 : list A) :
  StronglySorted R l1 -> StronglySorted R l2 ->
  (forall a b, In a l1 -> In b l2 -> R a b) ->
  StronglySorted R (l1 ++ l2).
Proof.
  intros H1 H2 H. induction H1 as [| a l1 Hs IH Ha]; [exact H2 |].
  cbn [app]. constructor.
  - apply IH. intros c b Hc Hb. apply H; [right |]; assumption.
  - apply Forall_app. split; [exact Ha |].
    apply Forall_forall. intros b Hb. apply H; [left; reflexivity | exact Hb].
Qed.

Lemma StronglySorted_prefix (l1 l2 : list A) :
  StronglySorted R (l1 ++ l2) -> StronglySorted R l1.
Proof.
  induction l1 as [| a l1 IH]; intros H; [constructor |].
  cbn [app] in H. apply StronglySorted_inv in H. destruct H as [Hs Ha].
  constructor; [apply IH; exact Hs |].
  apply Forall_app in Ha. apply Ha.
Qed.

Lemma StronglySorted_NoDup (l : list A) :
  (forall a, ~ R a a) -> StronglySorted R l -> NoDup l.
Proof.
  intros Hirr H. induction H as [| a l Hs IH Ha]; constructor; [| exact IH].
  intros Hin. rewrite Forall_forall in Ha. exact (Hirr a (Ha a Hin)).
Qed.

End Sortedness.

Lemma call_lt_irrefl p : ~ call_lt p p.
Proof. unfold call_lt. lia. Qed.

Lemma zrange_from_sorted k : forall lo, StronglySorted Z.lt (zrange_from lo k).
Proof.
  induction k as [| k IH]; intros lo; cbn [zrange_from]; constructor; [apply IH |].
  apply Forall_forall. intros j Hj. apply in_zrange_from in Hj. lia.
Qed.

Lemma zrange_sorted lo hi : StronglySorted Z.lt (zrange lo hi).
Proof. apply zrange_from_sorted. Qed.

(** A row is in order when its inner indices are. *)
Lemma row_sorted i (l : list Z) :
  StronglySorted Z.lt l -> StronglySorted call_lt (map (pair i) l).
Proof.
  induction 1 as [| j l Hs IH Hj]; cbn [map]; constructor; [exact IH |].
  apply Forall_forall. intros p Hp. apply in_map_iff in Hp.
  destruct Hp as (j' & <- & Hj'). rewrite Forall_forall in Hj.
  right. cbn. split; [reflexivity | apply Hj; exact Hj'].
Qed.

(** Rows taken with ascending outer index make an ordered enumeration. *)
Lemma rows_sorted (row : Z -> list call) (l : list Z) :
  StronglySorted Z.lt l ->
  (forall i, In i l -> StronglySorted call_lt (row i)) ->
  (forall i p, In i l -> In p (row i) -> fst p = i) ->
  StronglySorted call_lt (flat_map row l).
Proof.
  induction 1 as [| i l Hs IH Hi]; intros Hrow Hfst; cbn [flat_map]; [constructor |].
  apply StronglySorted_append.
  - apply Hrow. left. reflexivity.
  - apply IH; intros; [apply Hrow | apply Hfst]; try right; assumption.
  - intros p q Hp Hq. apply in_flat_map in Hq. destruct Hq as (i' & Hi' & Hq).
    left. rewrite (Hfst i p), (Hfst i' q); try assumption;
      try (left; reflexivity); try (right; assumption).
    rewrite Forall_forall in Hi. apply Hi. exact Hi'.
Qed.

Lemma upper_pairs_sorted n : StronglySorted call_lt (upper_pairs n).
Proof.
  apply rows_sorted.
  - apply zrange_sorted.
  - intros i _. apply row_sorted, zrange_sorted.
  - intros i p _ Hp. apply in_map_iff in Hp. destruct Hp as (j & <- & _).
    reflexivity.
Qed.

Lemma off_diagonal_pairs_sorted n : StronglySorted call_lt (off_diagonal_pairs n).
Proof.
  apply rows_sorted.
  - apply zrange_sorted.
  - intros i Hi. apply in_zrange in Hi. unfold off_diagonal_row.
    rewrite zrange_without by lia. apply row_sorted, StronglySorted_append.
    + apply zrange_sorted.
    + apply zrange_sorted.
    + intros a b Ha Hb. apply in_zrange in Ha, Hb. lia.
  - intros i p _ Hp. apply in_map_iff in Hp. destruct Hp as (j & <- & _).
    reflexivity.
Qed.

Lemma pairs_of_sorted symmetric n : StronglySorted call_lt (pairs_of symmetric n).
Proof.
  destruct symmetric; [apply upper_pairs_sorted | apply off_diagonal_pairs_sorted].
Qed.

Lemma pairs_of_NoDup symmetric n : NoDup (pairs_of symmetric n).
Proof.
  apply (StronglySorted_NoDup call_lt); [exact call_lt_irrefl | apply pairs_of_sorted].
Qed.

(** The upper triangle holds [n (n - 1) / 2] pairs. *)
Lemma upper_rows_length n k : forall lo,
  lo + Z.of_nat k = n ->
  2 * Z.of_nat (length (flat_map (upper_row n) (zrange_from lo k)))
  = Z.of_nat k * (Z.of_nat k - 1).
Proof.
  induction k as [| k IH]; intros lo H; [reflexivity |].
  cbn [zrange_from flat_map]. rewrite length_app, Nat2Z.inj_add.
  rewrite Z.mul_add_distr_l, IH by lia.
  unfold upper_row. rewrite length_map, zrange_length. nia.
Qed.

Lemma upper_pairs_length n :
  0 <= n -> Z.of_nat (length (upper_pairs n)) = n * (n - 1) / 2.
Proof.
  intros Hn. unfold upper_pairs, zrange.
  pose proof (upper_rows_length n (Z.to_nat (n - 0)) 0 ltac:(lia)) as H.
  replace (Z.of_nat (Z.to_nat (n - 0))) with n in H by lia.
  apply Z.div_unique_exact; lia.
Qed.

Lemma off_diagonal_rows_length n (l : list Z) :
  (forall i, In i l -> 0 <= i < n) ->
  Z.of_nat (length (flat_map (off_diagonal_row n) l))
  = Z.of_nat (length l) * (n - 1).
Proof.
  induction l as [| i l IH]; intros H; [reflexivity |].
  cbn [flat_map length]. rewrite length_app, Nat2Z.inj_add, IH
    by (intros; apply H; right; assumption).
  unfold off_diagonal_row.
  rewrite zrange_without by (apply H; left; reflexivity).
  pose proof (H i (or_introl eq_refl)).
  rewrite length_map, length_app, !zrange_length. lia.
Qed.

(** The off-diagonal pairs are [n (n - 1)]. *)
Lemma off_diagonal_pairs_length n :
  0 <= n -> Z.of_nat (length (off_diagonal_pairs n)) = n * (n - 1).
Proof.
  intros Hn. unfold off_diagonal_pairs.
  rewrite off_diagonal_rows_length by (intros i Hi; apply in_zrange in Hi; lia).
  rewrite zrange_length. nia.
Qed.

(** ** Element reads *)

Lemma List_get_some {A} (l : list A) i :
  0 <= i < Z.of_nat (length l) -> exists a, List_get l i = Some a.
Proof.
  intros H. unfold List_get.
  destruct (Z.ltb_spec i 0) as [Hneg | _]; [lia |].
  destruct (nth_error l (Z.to_nat i)) as [a |] eqn:E; [exists a; reflexivity |].
  apply nth_error_None in E. lia.
Qed.

Lemma List_get_range {A} (l : list A) i a :
  List_get l i = Some a -> 0 <= i < Z.of_nat (length l).
Proof.
  unfold List_get. destruct (Z.ltb_spec i 0) as [Hneg | Hpos]; [discriminate |].
  intros E. assert (Z.to_nat i < length l)%nat by (apply nth_error_Some; congruence).
  lia.
Qed.

Lemma List_get_firstn {A} (l : list A) m i :
  i < Z.of_nat m -> List_get (firstn m l) i = List_get l i.
Proof.
  intros H. unfold List_get. destruct (Z.ltb_spec i 0) as [Hneg | Hpos]; [reflexivity |].
  rewrite nth_error_firstn.
  destruct (Nat.ltb_spec (Z.to_nat i) m) as [_ | Hge]; [reflexivity | lia].
Qed.

(** ** Kernels that never raise *)

Section TotalKernel.

Context {Item : Type} (Err : Type) (K : Item -> Item -> double).
Variables x y : list Item.

Lemma total_kernel_yields (p : call) :
  0 <= fst p < Z.of_nat (length x) -> 0 <= snd p < Z.of_nat (length y) ->
  yields x y (total_kernel Err K) p (kernel_value K x y p)
  /\ evaluates K x y p (kernel_value K x y p).
Proof.
  intros Hi Hj.
  destruct (List_get_some x _ Hi) as [a Ha], (List_get_some y _ Hj) as [b Hb].
  unfold yields, evaluates, kernel_value, call_kernel, total_kernel.
  rewrite Ha, Hb. split.
  - destruct p; reflexivity.
  - exists a, b. auto.
Qed.

Lemma total_kernel_yields_all (ps : list call) :
  (forall p, In p ps ->
     0 <= fst p < Z.of_nat (length x) /\ 0 <= snd p < Z.of_nat (length y)) ->
  Forall2 (yields x y (total_kernel Err K)) ps (map (kernel_value K x y) ps)
  /\ Forall2 (evaluates K x y) ps (map (kernel_value K x y) ps).
Proof.
  induction ps as [| p ps IH]; intros H.
  - split; constructor.
  - destruct (H p (or_introl eq_refl)) as [Hi Hj].
    destruct (total_kernel_yields p Hi Hj) as [Hy He].
    destruct IH as [Hys Hes]; [intros q Hq; apply H; right; exact Hq |].
    split; constructor; assumption.
Qed.

(** With items for every index and a kernel that never raises, the whole
    enumeration is visited; the result is the left-to-right sum of the
    kernel values over the [int] counter. *)
Lemma compute_decoupled_sum_total symmetric :
  (length x <= length y)%nat ->
  Forall2 (evaluates K x y) (pairs_of symmetric (int_of_size (length x)))
    (map (kernel_value K x y) (pairs_of symmetric (int_of_size (length x))))
  /\ compute_decoupled_sum x y (total_kernel Err K) symmetric
     = (pairs_of symmetric (int_of_size (length x)),
        Returned (PrimFloat.div
           (double_sum (map (kernel_value K x y)
                          (pairs_of symmetric (int_of_size (length x)))))
           (double_of_int
              (wrap_int (Z.of_nat
                 (length (pairs_of symmetric (int_of_size (length x))))))))).
Proof.
  intros Hlen. pose proof (int_of_size_le (length x)) as Hn.
  destruct (total_kernel_yields_all (pairs_of symmetric (int_of_size (length x))))
    as [Hys Hes].
  { intros p Hp. apply in_pairs_of in Hp. unfold in_mode in Hp. lia. }
  split; [exact Hes |].
  rewrite compute_decoupled_sum_eq.
  rewrite (accumulate_all_returns _ _ _ _ _ start Hys), bind_returned.
  cbn [mean_of ret calls result fst snd total count start].
  rewrite app_nil_r, count_iter. reflexivity.
Qed.

(** Such a call always returns. *)
Lemma total_kernel_returns symmetric :
  (length x <= length y)%nat ->
  exists v,
    result (compute_decoupled_sum x y (total_kernel Err K) symmetric) = Returned v.
Proof.
  intros Hlen. destruct (compute_decoupled_sum_total symmetric Hlen) as [_ ->].
  eexists. reflexivity.
Qed.

End TotalKernel.

(** ** Fewer than two items *)

Lemma pairs_of_small symmetric n : n < 2 -> pairs_of symmetric n = [].
Proof.
  intros H. destruct (pairs_of symmetric n) as [| p ps] eqn:E; [reflexivity |].
  assert (Hp : In p (pairs_of symmetric n)) by (rewrite E; left; reflexivity).
  apply in_pairs_of in Hp. unfold in_mode in Hp. destruct symmetric; lia.
Qed.

Lemma compute_decoupled_sum_small {Item Err : Type} (x y : list Item)
    (kernel_function : Item -> Item -> kernel_result Err) (symmetric : bool) :
  (length x < 2)%nat ->
  compute_decoupled_sum x y kernel_function symmetric = ([], Returned nan).
Proof.
  intros H.
  rewrite compute_decoupled_sum_eq, int_of_size_id by (unfold INT_MAX; lia).
  rewrite pairs_of_small by lia. reflexivity.
Qed.

(** C1 (as the code has it): with fewer than two items in [x], in either
    mode and whatever [y] and the kernel are, no kernel call is made, the
    pair counter stays [0], and [total / count] is computed all the same:
    the call returns [0.0 / 0], which is a not-a-number, and raises nothing. *)
Theorem degenerate_returns_nan {Item Err : Type} (x y : list Item)
    (kernel_function : Item -> Item -> kernel_result Err) (symmetric : bool) :
  (length x < 2)%nat ->
  compute_decoupled_sum x y kernel_function symmetric
  = ([], Returned (PrimFloat.div 0 (double_of_int 0)))
  /\ PrimFloat.is_nan (PrimFloat.div 0 (double_of_int 0)) = true.
Proof.
  intros H. split; [| reflexivity].
  rewrite compute_decoupled_sum_small by exact H. reflexivity.
Qed.

(** ** The two modes on inputs whose pair count fits the counter *)

(** Symmetric mode within the range of the [int] pair counter: for [x] and
    [y] of equal length [n] with [2 <= n <= 65536] and every kernel, the
    kernel is called exactly once on each index pair [0 <= i < j < n] and on
    nothing else, [n (n - 1) / 2] calls in all, and the result is the sum of
    the kernel values [K x[i] y[j]] divided by [n (n - 1) / 2]. *)
Theorem symmetric_mode_mean {Item : Type} (Err : Type)
    (K : Item -> Item -> double) (x y : list Item) (n : Z) :
  Z.of_nat (length x) = n -> length y = length x -> 2 <= n <= 65536 ->
  exists tr vs,
    compute_decoupled_sum x y (total_kernel Err K) true
    = (tr, Returned (PrimFloat.div (double_sum vs) (double_of_Z (n * (n - 1) / 2))))
    /\ Forall2 (evaluates K x y) tr vs
    /\ NoDup tr
    /\ (forall i j, In (i, j) tr <-> 0 <= i < j /\ j < n)
    /\ Z.of_nat (length tr) = n * (n - 1) / 2.
Proof.
  intros Hn Hy Hr.
  assert (Hc : 0 <= n * (n - 1) / 2 <= 2147450880).
  { split; [apply Z.div_pos; nia | apply Z.div_le_upper_bound; nia]. }
  destruct (compute_decoupled_sum_total Err K x y true) as [Hvs Hrun]; [lia |].
  rewrite int_of_size_id, Hn in Hvs, Hrun by (unfold INT_MAX; lia).
  exists (pairs_of true n), (map (kernel_value K x y) (pairs_of true n)).
  pose proof (upper_pairs_length n ltac:(lia)) as Hlen.
  cbn [pairs_of] in *.
  rewrite Hlen, wrap_int_id in Hrun by (unfold INT_MIN, INT_MAX; lia).
  split; [exact Hrun |]. split; [exact Hvs |].
  split; [apply (pairs_of_NoDup true) |].
  split; [| exact Hlen].
  intros i j. rewrite in_upper_pairs. cbn [fst snd]. lia.
Qed.

(** Asymmetric mode within the range of the [int] pair counter: for [x] and
    [y] of equal length [n] with [2 <= n <= 46341] and every kernel, the
    kernel is called exactly once on each ordered index pair [0 <= i, j < n]
    with [i <> j] and on nothing else, [n (n - 1)] calls in all, and the
    result is the sum of the kernel values [K x[i] y[j]] divided by
    [n (n - 1)]. *)
Theorem asymmetric_mode_mean {Item : Type} (Err : Type)
    (K : Item -> Item -> double) (x y : list Item) (n : Z) :
  Z.of_nat (length x) = n -> length y = length x -> 2 <= n <= 46341 ->
  exists tr vs,
    compute_decoupled_sum x y (total_kernel Err K) false
    = (tr, Returned (PrimFloat.div (double_sum vs) (double_of_Z (n * (n - 1)))))
    /\ Forall2 (evaluates K x y) tr vs
    /\ NoDup tr
    /\ (forall i j, In (i, j) tr <-> 0 <= i < n /\ 0 <= j < n /\ i <> j)
    /\ Z.of_nat (length tr) = n * (n - 1).
Proof.
  intros Hn Hy Hr.
  destruct (compute_decoupled_sum_total Err K x y false) as [Hvs Hrun]; [lia |].
  rewrite int_of_size_id, Hn in Hvs, Hrun by (unfold INT_MAX; lia).
  exists (pairs_of false n), (map (kernel_value K x y) (pairs_of false n)).
  pose proof (off_diagonal_pairs_length n ltac:(lia)) as Hlen.
  cbn [pairs_of] in *. rewrite Hlen, wrap_int_id in Hrun
    by (unfold INT_MIN, INT_MAX; nia).
  split; [exact Hrun |]. split; [exact Hvs |].
  split; [apply (pairs_of_NoDup false) |].
  split; [| exact Hlen].
  intros i j. rewrite in_off_diagonal_pairs. cbn [fst snd]. lia.
Qed.

(** ** Every run, whatever the kernel does *)

Section AnyKernel.

Context {Item Err : Type}.
Variables (x y : list Item) (kernel_function : Item -> Item -> kernel_result Err).

(** A run either visits the whole enumeration and returns the mean, or stops
    at the first call that raises, with that call's failure. *)
Lemma compute_decoupled_sum_cases symmetric :
  (exists vs,
     Forall2 (yields x y kernel_function)
       (pairs_of symmetric (int_of_size (length x))) vs /\
     compute_decoupled_sum x y kernel_function symmetric
     = (pairs_of symmetric (int_of_size (length x)),
        Returned (PrimFloat.div (double_sum vs)
           (double_of_int (wrap_int (Z.of_nat
              (length (pairs_of symmetric (int_of_size (length x))))))))))
  \/ (exists (pre : list call) (p : call) (rest : list call) vs t f,
        pairs_of symmetric (int_of_size (length x)) = pre ++ p :: rest /\
        Forall2 (yields x y kernel_function) pre vs /\
        call_kernel x y kernel_function (fst p) (snd p) = (t, Raised f) /\
        (t = [p] \/ t = []) /\
        compute_decoupled_sum x y kernel_function symmetric = (pre ++ t, Raised f)).
Proof.
  rewrite compute_decoupled_sum_eq.
  generalize (pairs_of symmetric (int_of_size (length x))). intros ps.
  destruct (yields_or_raises x y kernel_function ps)
    as [[vs Hvs] | (pre & p & rest & vs & t & f & E & Hpre & Hp & Ht)].
  - left. exists vs. split; [exact Hvs |].
    rewrite (accumulate_all_returns _ _ _ _ _ start Hvs), bind_returned.
    cbn [mean_of ret calls result fst snd total count start].
    rewrite app_nil_r, count_iter. reflexivity.
  - right. exists pre, p, rest, vs, t, f. repeat split; try assumption.
    rewrite E, (accumulate_all_raises _ _ _ _ _ rest _ _ _ start Hpre Hp).
    reflexivity.
Qed.

Lemma compute_decoupled_sum_prefix symmetric :
  exists rest,
    pairs_of symmetric (int_of_size (length x))
    = calls (compute_decoupled_sum x y kernel_function symmetric) ++ rest.
Proof.
  destruct (compute_decoupled_sum_cases symmetric)
    as [(vs & _ & ->) | (pre & p & rest & vs & t & f & E & _ & _ & Ht & ->)].
  - exists []. cbn. rewrite app_nil_r. reflexivity.
  - rewrite E. cbn [calls fst]. destruct Ht as [-> | ->].
    + exists rest. rewrite <- app_assoc. reflexivity.
    + exists (p :: rest). rewrite app_nil_r. reflexivity.
Qed.

Lemma compute_decoupled_sum_returned symmetric v :
  result (compute_decoupled_sum x y kernel_function symmetric) = Returned v ->
  calls (compute_decoupled_sum x y kernel_function symmetric)
  = pairs_of symmetric (int_of_size (length x)).
Proof.
  destruct (compute_decoupled_sum_cases symmetric)
    as [(vs & _ & ->) | (pre & p & rest & vs & t & f & _ & _ & _ & _ & ->)].
  - reflexivity.
  - discriminate.
Qed.

(** A call that yields does not fail, and a call whose items are there does
    not run out of bounds. *)
Lemma yields_not_fails p v a b e :
  yields x y kernel_function p v ->
  List_get x (fst p) = Some a -> List_get y (snd p) = Some b ->
  kernel_function a b = Fails e -> False.
Proof.
  unfold yields, call_kernel. intros H Ha Hb Hk. rewrite Ha, Hb, Hk in H.
  discriminate.
Qed.

Lemma raises_in_bounds p t f :
  call_kernel x y kernel_function (fst p) (snd p) = (t, Raised f) ->
  0 <= fst p < Z.of_nat (length x) -> 0 <= snd p < Z.of_nat (length y) ->
  exists e, f = KernelFailure e.
Proof.
  intros H Hi Hj.
  destruct (List_get_some x _ Hi) as [a Ha], (List_get_some y _ Hj) as [b Hb].
  unfold call_kernel in H. rewrite Ha, Hb in H.
  destruct (kernel_function a b) as [v | e]; inversion H. exists e. reflexivity.
Qed.

End AnyKernel.

(** C9: for every [x], [y], kernel and mode, the index pairs at which the
    kernel is called come in lexicographic order, outer index ascending and
    inner index ascending within it, each within the constraint of the mode
    ([i < j] in symmetric mode, [i <> j] in asymmetric mode, both below [n]);
    they are an initial segment of the one enumeration that [n] and the mode
    fix, and the whole of it whenever the call returns. *)
Theorem call_order_deterministic {Item Err : Type} (x y : list Item)
    (kernel_function : Item -> Item -> kernel_result Err) (symmetric : bool) :
  StronglySorted call_lt
    (calls (compute_decoupled_sum x y kernel_function symmetric))
  /\ Forall (in_mode symmetric (int_of_size (length x)))
       (calls (compute_decoupled_sum x y kernel_function symmetric))
  /\ (exists rest,
        pairs_of symmetric (int_of_size (length x))
        = calls (compute_decoupled_sum x y kernel_function symmetric) ++ rest)
  /\ (forall v,
        result (compute_decoupled_sum x y kernel_function symmetric) = Returned v ->
        calls (compute_decoupled_sum x y kernel_function symmetric)
        = pairs_of symmetric (int_of_size (length x))).
Proof.
  destruct (compute_decoupled_sum_prefix x y kernel_function symmetric) as [rest E].
  split; [| split; [| split]].
  - apply (StronglySorted_prefix call_lt _ rest). rewrite <- E.
    apply pairs_of_sorted.
  - apply Forall_forall. intros p Hp. apply in_pairs_of. rewrite E.
    apply in_or_app. left. exact Hp.
  - exists rest. exact E.
  - apply compute_decoupled_sum_returned.
Qed.

Lemma Forall2_in_left {A B} (R : A -> B -> Prop) (l : list A) (l' : list B) a :
  Forall2 R l l' -> In a l -> exists b, R a b.
Proof.
  induction 1 as [| a0 b0 l l' H0 _ IH]; intros Hin; [contradiction |].
  destruct Hin as [<- | Hin]; [exists b0; exact H0 | apply IH; exact Hin].
Qed.

(** C8: both loop bounds come from the length of [x] alone.  When [y] is at
    least as long as [x], no element read is out of bounds, every index read
    in [x] and in [y] is below the length of [x], the items of [y] from
    that index on are never read (cutting them off changes nothing), and the
    pairs visited are an initial segment of the enumeration that the length
    of [x] and the mode fix. *)
Theorem reads_within_length_of_x {Item Err : Type} (x y : list Item)
    (kernel_function : Item -> Item -> kernel_result Err) (symmetric : bool) :
  (length x <= length y)%nat ->
  result (compute_decoupled_sum x y kernel_function symmetric) <> Raised OutOfBounds
  /\ Forall (fun p => 0 <= fst p < Z.of_nat (length x)
                      /\ 0 <= snd p < Z.of_nat (length x))
       (calls (compute_decoupled_sum x y kernel_function symmetric))
  /\ compute_decoupled_sum x (firstn (length x) y) kernel_function symmetric
     = compute_decoupled_sum x y kernel_function symmetric
  /\ (exists rest,
        pairs_of symmetric (int_of_size (length x))
        = calls (compute_decoupled_sum x y kernel_function symmetric) ++ rest).
Proof.
  intros Hlen.
  pose proof (int_of_size_le (length x)) as Hn.
  assert (Hb : forall p, In p (pairs_of symmetric (int_of_size (length x))) ->
                 0 <= fst p < Z.of_nat (length x)
                 /\ 0 <= snd p < Z.of_nat (length x)).
  { intros p Hp. apply in_pairs_of in Hp. unfold in_mode in Hp. lia. }
  destruct (compute_decoupled_sum_prefix x y kernel_function symmetric) as [rest E].
  split; [| split; [| split]].
  - destruct (compute_decoupled_sum_cases x y kernel_function symmetric)
      as [(vs & _ & ->) | (pre & p & rest' & vs & t & f & E' & _ & Hp & _ & ->)];
      [discriminate |].
    assert (Hin : In p (pairs_of symmetric (int_of_size (length x)))).
    { rewrite E'. apply in_or_app. right. left. reflexivity. }
    destruct (Hb p Hin) as [Hi Hj].
    destruct (raises_in_bounds x y kernel_function p t f Hp Hi ltac:(lia)) as [e ->].
    discriminate.
  - apply Forall_forall. intros p Hp. apply Hb. rewrite E.
    apply in_or_app. left. exact Hp.
  - rewrite !compute_decoupled_sum_eq. f_equal. unfold accumulate_all.
    apply foreach_ext. intros p s Hp. destruct (Hb p Hp) as [_ Hj].
    unfold accumulate, call_kernel. rewrite List_get_firstn by lia. reflexivity.
  - exists rest. exact E.
Qed.

(** C6 (as the code has it): when the kernel is called at an index pair
    [(i, j)] and fails there with [e], the run ends at once: [(i, j)] is the
    last call made, the pairs after it in the enumeration are not visited,
    and what comes out is the kernel's own failure [e] and nothing else, so
    neither a number nor the sum so far. *)
Theorem kernel_failure_aborts {Item Err : Type} (x y : list Item)
    (kernel_function : Item -> Item -> kernel_result Err) (symmetric : bool)
    (i j : Z) (a b : Item) (e : Err) :
  In (i, j) (calls (compute_decoupled_sum x y kernel_function symmetric)) ->
  List_get x i = Some a -> List_get y j = Some b ->
  kernel_function a b = Fails e ->
  result (compute_decoupled_sum x y kernel_function symmetric)
  = Raised (KernelFailure e)
  /\ exists pre rest,
       calls (compute_decoupled_sum x y kernel_function symmetric)
       = pre ++ [(i, j)]
       /\ pairs_of symmetric (int_of_size (length x))
          = pre ++ (i, j) :: rest.
Proof.
  intros Hin Ha Hb Hk.
  assert (Hno : forall vs ps, Forall2 (yields x y kernel_function) ps vs ->
                  ~ In (i, j) ps).
  { intros vs ps Hys Hp. destruct (Forall2_in_left _ _ _ _ Hys Hp) as [v Hv].
    exact (yields_not_fails x y kernel_function (i, j) v a b e Hv Ha Hb Hk). }
  destruct (compute_decoupled_sum_cases x y kernel_function symmetric)
    as [(vs & Hys & E) | (pre & p & rest & vs & t & f & E' & Hpre & Hp & Ht & E)];
    rewrite E in Hin |- *; cbn [calls result fst snd] in *.
  - exfalso. exact (Hno _ _ Hys Hin).
  - apply in_app_or in Hin. destruct Hin as [Hin | Hin];
      [exfalso; exact (Hno _ _ Hpre Hin) |].
    destruct Ht as [-> | ->]; [| contradiction].
    destruct Hin as [-> | []].
    unfold call_kernel in Hp. cbn [fst snd] in Hp. rewrite Ha, Hb, Hk in Hp.
    inversion Hp. split; [reflexivity |].
    exists pre, rest. split; [reflexivity | exact E'].
Qed.

(** ** The batch loop *)

Lemma vector_set_middle {A} (done : list A) c rest a :
  vector_set (done ++ c :: rest) (length done) a = done ++ a :: rest.
Proof.
  induction done as [| d done IH]; [reflexivity |].
  cbn [app length vector_set]. rewrite IH. reflexivity.
Qed.

Lemma List_get_middle {A} (before : list A) a after :
  List_get (before ++ a :: after) (Z.of_nat (length before)) = Some a.
Proof.
  unfold List_get. destruct (Z.ltb_spec (Z.of_nat (length before)) 0); [lia |].
  rewrite Nat2Z.id, nth_error_app2, Nat.sub_diag by lia. reflexivity.
Qed.

Section Batch.

Context {Item Err : Type}.
Variables (x : list Item) (kernel_function : Item -> Item -> kernel_result Err)
  (symmetric : bool).

Lemma compute_multiple_decoupled_sums_eq y_list :
  compute_multiple_decoupled_sums x y_list kernel_function symmetric
  = bind (NumericVector_new (int_of_size (length y_list)))
      (for_range 0 (int_of_size (length y_list))
         (batch_step x y_list kernel_function symmetric)).
Proof. reflexivity. Qed.

(** One round at index [length before], on an element that returns. *)
Lemma batch_step_returns before y after done c zeros r :
  length done = length before -> returns_as x kernel_function symmetric y r ->
  batch_step x (before ++ y :: after) kernel_function symmetric
    (Z.of_nat (length before)) (done ++ c :: zeros)
  = (fst r, Returned ((done ++ [snd r]) ++ zeros)).
Proof.
  intros Hlen Hr. unfold batch_step. rewrite List_get_middle, Hr, bind_returned.
  cbn [ret calls result fst snd]. rewrite app_nil_r, Nat2Z.id, <- Hlen.
  rewrite vector_set_middle, <- app_assoc. reflexivity.
Qed.

(** One round at index [length before], on an element that raises. *)
Lemma batch_step_raises before y after results t f :
  compute_decoupled_sum x y kernel_function symmetric = (t, Raised f) ->
  batch_step x (before ++ y :: after) kernel_function symmetric
    (Z.of_nat (length before)) results
  = (t, Raised f).
Proof.
  intros Hr. unfold batch_step. rewrite List_get_middle, Hr. reflexivity.
Qed.

(** The rounds over elements that all return fill the vector in order. *)
Lemma batch_rounds_return ys rs : forall before done after,
  Forall2 (returns_as x kernel_function symmetric) ys rs -> length done = length before ->
  foreach (zrange_from (Z.of_nat (length before)) (length ys))
    (batch_step x (before ++ ys ++ after) kernel_function symmetric)
    (done ++ repeat 0%float (length ys + length after))
  = (concat (map fst rs),
     Returned ((done ++ map snd rs) ++ repeat 0%float (length after))).
Proof.
  intros before done after H. revert before done.
  induction H as [| y r ys rs Hr _ IH]; intros before done Hlen.
  - cbn. rewrite app_nil_r. reflexivity.
  - cbn [length zrange_from foreach Nat.add repeat app].
    rewrite (batch_step_returns before y (ys ++ after) done _ _ r Hlen Hr).
    rewrite bind_returned.
    replace (Z.of_nat (length before) + 1)
      with (Z.of_nat (length (before ++ [y]))) by (rewrite length_app; cbn; lia).
    replace (before ++ y :: ys ++ after) with ((before ++ [y]) ++ ys ++ after)
      by (rewrite <- app_assoc; reflexivity).
    rewrite IH by (rewrite !length_app; cbn; lia).
    cbn [calls result fst snd map concat]. rewrite <- !app_assoc. reflexivity.
Qed.

(** The first element that raises ends the batch with its own failure. *)
Lemma batch_rounds_raise ys rs y t f after :
  forall before done,
  Forall2 (returns_as x kernel_function symmetric) ys rs -> length done = length before ->
  compute_decoupled_sum x y kernel_function symmetric = (t, Raised f) ->
  foreach (zrange_from (Z.of_nat (length before)) (length (ys ++ y :: after)))
    (batch_step x (before ++ ys ++ y :: after) kernel_function symmetric)
    (done ++ repeat 0%float (length (ys ++ y :: after)))
  = (concat (map fst rs) ++ t, Raised f).
Proof.
  intros before done H. revert before done.
  induction H as [| y0 r ys rs Hr _ IH]; intros before done Hlen Hy.
  - cbn [app length zrange_from foreach map concat].
    rewrite (batch_step_raises before y after _ t f Hy). reflexivity.
  - cbn [length zrange_from foreach Nat.add repeat app].
    rewrite (batch_step_returns before y0 (ys ++ y :: after) done _ _ r Hlen Hr).
    rewrite bind_returned.
    replace (Z.of_nat (length before) + 1)
      with (Z.of_nat (length (before ++ [y0]))) by (rewrite length_app; cbn; lia).
    replace (before ++ y0 :: ys ++ y :: after)
      with ((before ++ [y0]) ++ ys ++ y :: after)
      by (rewrite <- app_assoc; reflexivity).
    rewrite IH by first [assumption | rewrite !length_app; cbn; lia].
    cbn [calls result fst snd map concat]. rewrite <- !app_assoc. reflexivity.
Qed.

Lemma batch_start y_list :
  Z.of_nat (length y_list) <= INT_MAX ->
  compute_multiple_decoupled_sums x y_list kernel_function symmetric
  = foreach (zrange_from 0 (length y_list))
      (batch_step x y_list kernel_function symmetric)
      (repeat 0%float (length y_list)).
Proof.
  intros H. rewrite compute_multiple_decoupled_sums_eq, int_of_size_id by exact H.
  unfold NumericVector_new.
  destruct (Z.ltb_spec (Z.of_nat (length y_list)) 0) as [Hneg | _]; [lia |].
  rewrite bind_ret_l, for_range_foreach by (unfold INT_MIN; lia).
  unfold zrange. rewrite Z.sub_0_r, Nat2Z.id. reflexivity.
Qed.

(** A batch whose elements all return. *)
Lemma batch_returns y_list rs :
  Z.of_nat (length y_list) <= INT_MAX -> Forall2 (returns_as x kernel_function symmetric) y_list rs ->
  compute_multiple_decoupled_sums x y_list kernel_function symmetric
  = (concat (map fst rs), Returned (map snd rs)).
Proof.
  intros Hmax H. rewrite batch_start by exact Hmax.
  pose proof (batch_rounds_return y_list rs [] [] [] H eq_refl) as E.
  cbn [app length] in E. rewrite !app_nil_r, Nat.add_0_r in E. exact E.
Qed.

(** A batch whose element after [before] is the first to raise. *)
Lemma batch_raises before rs y after t f :
  Z.of_nat (length (before ++ y :: after)) <= INT_MAX ->
  Forall2 (returns_as x kernel_function symmetric) before rs ->
  compute_decoupled_sum x y kernel_function symmetric = (t, Raised f) ->
  compute_multiple_decoupled_sums x (before ++ y :: after) kernel_function symmetric
  = (concat (map fst rs) ++ t, Raised f).
Proof.
  intros Hmax H Hy. rewrite batch_start by exact Hmax.
  exact (batch_rounds_raise before rs y t f after [] [] H eq_refl Hy).
Qed.

(** Elements that return, with what they return. *)
Lemma returning_elements ys :
  (forall y, In y ys ->
     exists v, result (compute_decoupled_sum x y kernel_function symmetric)
               = Returned v) ->
  exists rs, Forall2 (returns_as x kernel_function symmetric) ys rs
    /\ map fst rs
       = map (fun y => calls (compute_decoupled_sum x y kernel_function symmetric)) ys.
Proof.
  induction ys as [| y ys IH]; intros H.
  - exists []. split; [constructor | reflexivity].
  - destruct (H y (or_introl eq_refl)) as [v Hv].
    destruct IH as (rs & Hrs & Hc); [intros y' Hy'; apply H; right; exact Hy' |].
    exists ((calls (compute_decoupled_sum x y kernel_function symmetric), v) :: rs).
    split.
    + constructor; [| exact Hrs]. unfold returns_as. cbn [fst snd].
      rewrite <- Hv. unfold calls, result. apply surjective_pairing.
    + cbn [map fst]. rewrite Hc. reflexivity.
Qed.

End Batch.



(** C5 (as the code has it): when the single call for batch element [b]
    raises (a kernel failure, or a read out of bounds) and the calls for the
    elements before it return, the batch raises that same failure, unchanged
    and without the batch index; the elements after [b] are not processed
    and no vector is returned.  An [x] with fewer than two items is no
    failure: every element then stores a not-a-number and the batch returns
    the full vector. *)
Theorem batch_failure_propagates {Item Err : Type} (x : list Item)
    (before : list (list Item)) (y : list Item) (after : list (list Item))
    (kernel_function : Item -> Item -> kernel_result Err) (symmetric : bool) :
  Z.of_nat (length (before ++ y :: after)) <= INT_MAX ->
  (forall y', In y' before ->
     exists v, result (compute_decoupled_sum x y' kernel_function symmetric)
               = Returned v) ->
  (forall f,
     result (compute_decoupled_sum x y kernel_function symmetric) = Raised f ->
     result (compute_multiple_decoupled_sums x (before ++ y :: after)
               kernel_function symmetric) = Raised f
     /\ calls (compute_multiple_decoupled_sums x (before ++ y :: after)
                 kernel_function symmetric)
        = concat (map (fun y' =>
                    calls (compute_decoupled_sum x y' kernel_function symmetric))
                  before)
          ++ calls (compute_decoupled_sum x y kernel_function symmetric))
  /\ ((length x < 2)%nat ->
      compute_multiple_decoupled_sums x (before ++ y :: after)
        kernel_function symmetric
      = ([], Returned (repeat nan (length (before ++ y :: after))))).
Proof.
  intros Hmax Hbefore. split.
  - intros f Hf.
    destruct (returning_elements x kernel_function symmetric before Hbefore)
      as (rs & Hrs & Hcalls).
    rewrite (batch_raises x kernel_function symmetric before rs y after
               (calls (compute_decoupled_sum x y kernel_function symmetric)) f
               Hmax Hrs).
    + cbn [calls result fst snd]. rewrite Hcalls. split; reflexivity.
    + rewrite <- Hf. unfold calls, result. apply surjective_pairing.
  - intros Hx.
    revert Hmax. generalize (before ++ y :: after). intros ys Hmax.
    assert (Hrs : Forall2 (returns_as x kernel_function symmetric) ys
                    (map (fun _ => ([], nan)) ys)).
    { clear Hmax. induction ys as [| y0 ys IH]; cbn [map]; constructor;
        [| exact IH].
      unfold returns_as. cbn [fst snd].
      apply compute_decoupled_sum_small. exact Hx. }
    rewrite (batch_returns x kernel_function symmetric ys _ Hmax Hrs).
    rewrite !map_map. cbn [fst snd]. f_equal.
    + clear. induction ys as [| y0 ys IH]; [reflexivity | exact IH].
    + f_equal. clear. induction ys as [| y0 ys IH]; [reflexivity |].
      cbn [map length repeat]. rewrite IH. reflexivity.
Qed.

(** ** A symmetric kernel on one collection *)

Lemma swap_injective : Injective swap.
Proof.
  intros [i j] [i' j'] H. unfold swap in H. cbn in H. congruence.
Qed.

(** The off-diagonal pairs are the upper triangle and its mirror image. *)
Lemma off_diagonal_upper_twice n :
  Permutation (off_diagonal_pairs n) (upper_pairs n ++ map swap (upper_pairs n)).
Proof.
  apply NoDup_Permutation.
  - apply (pairs_of_NoDup false).
  - apply NoDup_app.
    + apply (pairs_of_NoDup true).
    + apply Injective_map_NoDup; [exact swap_injective | apply (pairs_of_NoDup true)].
    + intros p Hp Hq. apply in_upper_pairs in Hp. apply in_map_iff in Hq.
      destruct Hq as (q & <- & Hq). apply in_upper_pairs in Hq.
      unfold swap in Hp. cbn in Hp. lia.
  - intros p. rewrite in_off_diagonal_pairs, in_app_iff, in_upper_pairs, in_map_iff.
    split.
    + intros H. destruct (Z_lt_le_dec (fst p) (snd p)) as [Hlt | Hge]; [left; lia |].
      right. exists (swap p). split; [destruct p; reflexivity |].
      apply in_upper_pairs. unfold swap. cbn. lia.
    + intros [H | (q & <- & Hq)]; [lia |].
      apply in_upper_pairs in Hq. unfold swap. cbn. lia.
Qed.

Lemma kernel_value_swap {Item} (K : Item -> Item -> double) (x : list Item) p :
  (forall a b, K a b = K b a) ->
  kernel_value K x x (swap p) = kernel_value K x x p.
Proof.
  intros Hsym. unfold kernel_value, swap. cbn [fst snd].
  destruct (List_get x (fst p)) as [a |], (List_get x (snd p)) as [b |];
    try reflexivity.
  apply Hsym.
Qed.

Lemma Qsum_cons q qs : Qsum (q :: qs) = (q + Qsum qs)%Q.
Proof. reflexivity. Qed.

Lemma Qsum_app qs qs' : (Qsum (qs ++ qs') == Qsum qs + Qsum qs')%Q.
Proof.
  induction qs as [| q qs IH]; cbn [app].
  - change (Qsum []) with 0%Q. ring.
  - rewrite !Qsum_cons, IH. ring.
Qed.

Lemma Qsum_Permutation qs qs' : Permutation qs qs' -> (Qsum qs == Qsum qs')%Q.
Proof.
  induction 1 as [| q qs qs' _ IH | q q' qs | qs qs' qs'' _ IH1 _ IH2].
  - reflexivity.
  - rewrite !Qsum_cons, IH. reflexivity.
  - rewrite !Qsum_cons. ring.
  - exact (Qeq_trans _ _ _ IH1 IH2).
Qed.

(** Twice the values over twice the counter is the same exact mean. *)
Lemma exact_mean_twice phi (vs ws : list double) (c : Z) :
  Permutation ws (vs ++ vs) ->
  (exact_mean phi ws (2 * c) == exact_mean phi vs c)%Q.
Proof.
  intros H. unfold exact_mean.
  rewrite (Qsum_Permutation _ _ (Permutation_map phi H)).
  rewrite map_app, Qsum_app, inject_Z_mult.
  destruct (Z.eq_dec c 0) as [-> | Hc].
  - unfold Qdiv. change (/ (inject_Z 2 * inject_Z 0))%Q with 0%Q.
    change (/ inject_Z 0)%Q with 0%Q. ring.
  - assert (Hm : ~ (inject_Z c == 0)%Q).
    { unfold Qeq. cbn [Qnum Qden inject_Z]. lia. }
    change (inject_Z 2) with 2%Q. field. exact Hm.
Qed.

(** C4 (as the code has it): with the one collection [x] of [n <= 46341]
    items on both sides and a kernel with [K a b = K b a], asymmetric mode
    evaluates the very kernel values of symmetric mode, each of them twice,
    in its own order: its values are a rearrangement of the symmetric values
    taken twice, and its pair counter [n (n - 1)] is twice the symmetric
    counter [n (n - 1) / 2].  Neither mode applies a factor of 2: each result
    is the left-to-right sum of its values over its pair counter, and in
    exact arithmetic the sum over the counter is the same number in both
    modes.  (From 46342 items on, the [int] counter of asymmetric mode no
    longer holds [n (n - 1)].) *)
Theorem symmetric_kernel_same_values {Item : Type} (Err : Type)
    (K : Item -> Item -> double) (x : list Item) (n : Z) :
  (forall a b, K a b = K b a) ->
  Z.of_nat (length x) = n -> n <= 46341 ->
  exists vs_sym vs_asym,
    (exists tr,
       compute_decoupled_sum x x (total_kernel Err K) true
       = (tr, Returned (PrimFloat.div (double_sum vs_sym)
                (double_of_int (n * (n - 1) / 2))))
       /\ Forall2 (evaluates K x x) tr vs_sym)
    /\ (exists tr,
       compute_decoupled_sum x x (total_kernel Err K) false
       = (tr, Returned (PrimFloat.div (double_sum vs_asym)
                (double_of_int (n * (n - 1)))))
       /\ Forall2 (evaluates K x x) tr vs_asym)
    /\ Permutation vs_asym (vs_sym ++ vs_sym)
    /\ length vs_asym = (2 * length vs_sym)%nat
    /\ n * (n - 1) = 2 * (n * (n - 1) / 2)
    /\ forall phi,
         (exact_mean phi vs_asym (n * (n - 1))
          == exact_mean phi vs_sym (n * (n - 1) / 2))%Q.
Proof.
  intros Hsym Hn Hmax.
  destruct (compute_decoupled_sum_total Err K x x true (le_n _)) as [Hs Hrs].
  destruct (compute_decoupled_sum_total Err K x x false (le_n _)) as [Ha Hra].
  rewrite int_of_size_id, Hn in Hs, Hrs, Ha, Hra by (unfold INT_MAX; lia).
  cbn [pairs_of] in *.
  pose proof (upper_pairs_length n ltac:(lia)) as Hlu.
  pose proof (off_diagonal_pairs_length n ltac:(lia)) as Hlo.
  assert (Hperm : Permutation (map (kernel_value K x x) (off_diagonal_pairs n))
                    (map (kernel_value K x x) (upper_pairs n)
                     ++ map (kernel_value K x x) (upper_pairs n))).
  { rewrite (Permutation_map _ (off_diagonal_upper_twice n)), map_app, map_map.
    rewrite (map_ext (fun p => kernel_value K x x (swap p)) (kernel_value K x x))
      by (intros p; apply kernel_value_swap; exact Hsym).
    reflexivity. }
  assert (Htwice : n * (n - 1) = 2 * (n * (n - 1) / 2)).
  { pose proof (Permutation_length Hperm) as Hl.
    rewrite length_app, !length_map in Hl. lia. }
  assert (Hrange : 0 <= n * (n - 1) / 2 <= n * (n - 1) /\ n * (n - 1) <= INT_MAX).
  { unfold INT_MAX. split; [lia | nia]. }
  rewrite Hlu, wrap_int_id in Hrs by (unfold INT_MIN, INT_MAX in *; lia).
  rewrite Hlo, wrap_int_id in Hra by (unfold INT_MIN, INT_MAX in *; lia).
  exists (map (kernel_value K x x) (upper_pairs n)),
         (map (kernel_value K x x) (off_diagonal_pairs n)).
  split; [| split; [| split; [| split; [| split]]]].
  - exists (upper_pairs n). split; assumption.
  - exists (off_diagonal_pairs n). split; assumption.
  - exact Hperm.
  - rewrite (Permutation_length Hperm), length_app. lia.
  - exact Htwice.
  - intros phi. rewrite Htwice at 1. apply exact_mean_twice. exact Hperm.
Qed.

(** ** Past the range of the pair counter *)

Lemma pairs_of_head symmetric n :
  2 <= n -> exists rest, pairs_of symmetric n = (0, 1) :: rest.
Proof.
  intros H. destruct symmetric; cbn [pairs_of].
  - unfold upper_pairs. rewrite (zrange_cons 0 n) by lia. cbn [flat_map].
    unfold upper_row at 1. rewrite (zrange_cons (0 + 1) n) by lia.
    cbn [map app]. eexists. reflexivity.
  - unfold off_diagonal_pairs. rewrite (zrange_cons 0 n) by lia.
    cbn [flat_map]. unfold off_diagonal_row at 1.
    rewrite (zrange_without 0 n 0) by lia.
    rewrite (zrange_nil 0 0), (zrange_cons (0 + 1) n) by lia.
    cbn [map app]. eexists. reflexivity.
Qed.

Lemma double_sum_spike (vs : list double) :
  Forall (fun v => v = 0%float) vs -> double_sum (1%float :: vs) = 1%float.
Proof.
  unfold double_sum. cbn [fold_left].
  change (PrimFloat.add 0 1) with 1%float.
  induction 1 as [| v vs Hv _ IH]; [reflexivity |].
  cbn [fold_left]. rewrite Hv. exact IH.
Qed.

Lemma List_get_zeros (l : list Z) c i a :
  Forall (fun b => b = 0) l -> 1 <= i -> List_get (c :: l) i = Some a -> a = 0.
Proof.
  intros Hl Hi. unfold List_get.
  destruct (Z.ltb_spec i 0) as [Hneg | _]; [lia |].
  replace (Z.to_nat i) with (S (Z.to_nat (i - 1))) by lia. cbn [nth_error].
  intros E. apply nth_error_In in E. rewrite Forall_forall in Hl. apply Hl, E.
Qed.

Lemma repeat_zeros m : Forall (fun b => b = 0) (repeat 0 m).
Proof. apply Forall_forall. intros b Hb. exact (repeat_spec _ _ _ Hb). Qed.

(** Away from the index pair [(0, 1)] the spike kernel is [0.0]. *)
Lemma kernel_value_spike_zero m (p : call) :
  1 <= fst p \/ 2 <= snd p ->
  kernel_value kernel_spike (spike_x m) (spike_y m) p = 0%float.
Proof.
  intros H. unfold kernel_value, spike_x, spike_y.
  destruct (List_get (1 :: repeat 0 (m - 1)) (fst p)) as [a |] eqn:Ea;
    [| reflexivity].
  destruct (List_get (0 :: 1 :: repeat 0 (m - 2)) (snd p)) as [b |] eqn:Eb;
    [| reflexivity].
  unfold kernel_spike. destruct H as [H | H].
  - rewrite (List_get_zeros _ _ _ _ (repeat_zeros _) H Ea). reflexivity.
  - assert (Hb : b = 0).
    { apply (List_get_zeros (repeat 0 (m - 2)) 1 (snd p - 1) b (repeat_zeros _));
        [lia |].
      revert Eb. unfold List_get.
      destruct (Z.ltb_spec (snd p) 0), (Z.ltb_spec (snd p - 1) 0); try lia.
      replace (Z.to_nat (snd p)) with (S (Z.to_nat (snd p - 1))) by lia.
      cbn [nth_error]. trivial. }
    rewrite Hb, andb_false_r. reflexivity.
Qed.

(** On the spike inputs the kernel values add up to [1.0], and the result is
    that sum over the wrapped pair counter. *)
Lemma spike_run (symmetric : bool) (m : nat) :
  2 <= Z.of_nat m <= INT_MAX ->
  double_sum (map (kernel_value kernel_spike (spike_x m) (spike_y m))
                (pairs_of symmetric (Z.of_nat m))) = 1%float
  /\ Forall2 (evaluates kernel_spike (spike_x m) (spike_y m))
       (pairs_of symmetric (Z.of_nat m))
       (map (kernel_value kernel_spike (spike_x m) (spike_y m))
          (pairs_of symmetric (Z.of_nat m)))
  /\ compute_decoupled_sum (spike_x m) (spike_y m)
       (total_kernel unit kernel_spike) symmetric
     = (pairs_of symmetric (Z.of_nat m),
        Returned (PrimFloat.div
          (double_sum (map (kernel_value kernel_spike (spike_x m) (spike_y m))
                         (pairs_of symmetric (Z.of_nat m))))
          (double_of_int
             (wrap_int (Z.of_nat (length (pairs_of symmetric (Z.of_nat m)))))))).
Proof.
  intros Hm.
  assert (Hx : length (spike_x m) = m).
  { unfold spike_x. cbn [length]. rewrite repeat_length. lia. }
  assert (Hy : length (spike_y m) = m).
  { unfold spike_y. cbn [length]. rewrite repeat_length. lia. }
  destruct (compute_decoupled_sum_total unit kernel_spike (spike_x m) (spike_y m)
              symmetric) as [Hvs Hrun]; [lia |].
  rewrite Hx, int_of_size_id in Hvs, Hrun by lia.
  split; [| split; assumption].
  pose proof (pairs_of_NoDup symmetric (Z.of_nat m)) as Hnd.
  assert (Hin : forall p, In p (pairs_of symmetric (Z.of_nat m)) ->
                  0 <= fst p /\ 0 <= snd p /\ fst p <> snd p).
  { intros p Hp. apply in_pairs_of in Hp. unfold in_mode in Hp.
    destruct symmetric; lia. }
  destruct (pairs_of_head symmetric (Z.of_nat m)) as [rest E]; [lia |].
  rewrite E in Hnd, Hin |- *. cbn [map].
  change (kernel_value kernel_spike (spike_x m) (spike_y m) (0, 1)) with 1%float.
  apply double_sum_spike. apply Forall_forall. intros v Hv.
  apply in_map_iff in Hv. destruct Hv as (p & <- & Hp).
  apply kernel_value_spike_zero.
  apply NoDup_cons_iff in Hnd. destruct Hnd as [Hnot _].
  specialize (Hin p (or_intror Hp)).
  destruct p as [i j]. cbn [fst snd] in *.
  destruct (Z.eq_dec i 0) as [-> | Hi]; [| lia].
  destruct (Z.eq_dec j 1) as [-> | Hj]; [contradiction | lia].
Qed.

Lemma pairs_of_true n : pairs_of true n = upper_pairs n.
Proof. reflexivity. Qed.

Lemma pairs_of_false n : pairs_of false n = off_diagonal_pairs n.
Proof. reflexivity. Qed.

(** C2 (the code where it departs from the claim): on two collections of
    65537 items symmetric mode calls the kernel on all 2147516416 pairs of
    the upper triangle, more than [INT_MAX]; the [int] counter has wrapped
    to -2147450880 when the division is made.  With a kernel that is [1.0]
    at one pair and [0.0] elsewhere, the sum of the kernel values is [1.0]
    and the result is that sum over the wrapped counter, a negative number,
    and not the sum over the number of pairs. *)
Theorem symmetric_counter_overflows :
  exists tr vs,
    compute_decoupled_sum (spike_x (Z.to_nat 65537)) (spike_y (Z.to_nat 65537))
      (total_kernel unit kernel_spike) true
    = (tr, Returned (PrimFloat.div (double_sum vs) (double_of_int (-2147450880))))
    /\ length (spike_x (Z.to_nat 65537)) = Z.to_nat 65537
    /\ length (spike_y (Z.to_nat 65537)) = Z.to_nat 65537
    /\ Forall2 (evaluates kernel_spike (spike_x (Z.to_nat 65537))
                  (spike_y (Z.to_nat 65537))) tr vs
    /\ Z.of_nat (length tr) = 65537 * (65537 - 1) / 2
    /\ double_sum vs = 1%float
    /\ PrimFloat.div (double_sum vs) (double_of_int (-2147450880))
       <> PrimFloat.div (double_sum vs) (double_of_Z (65537 * (65537 - 1) / 2)).
Proof.
  destruct (spike_run true (Z.to_nat 65537)) as (Hsum & Hvs & Hrun);
    [rewrite Z2Nat.id by lia; unfold INT_MAX; lia |].
  rewrite Z2Nat.id in Hsum, Hvs, Hrun by lia.
  rewrite pairs_of_true in Hsum, Hvs, Hrun.
  rewrite (upper_pairs_length 65537) in Hrun by lia.
  replace (wrap_int (65537 * (65537 - 1) / 2)) with (-2147450880) in Hrun
    by reflexivity.
  exists (upper_pairs 65537),
    (map (kernel_value kernel_spike (spike_x (Z.to_nat 65537))
            (spike_y (Z.to_nat 65537))) (upper_pairs 65537)).
  split; [exact Hrun |].
  split; [unfold spike_x; cbn [length]; rewrite repeat_length; lia |].
  split; [unfold spike_y; cbn [length]; rewrite repeat_length; lia |].
  split; [exact Hvs |].
  split; [apply upper_pairs_length; lia |].
  split; [exact Hsum |].
  rewrite Hsum. intros E.
  apply (f_equal (fun v => PrimFloat.ltb v 0)) in E. vm_compute in E.
  discriminate E.
Qed.

(** C3 (the code where it departs from the claim): on two collections of
    46342 items asymmetric mode calls the kernel on all 2147534622 ordered
    pairs with distinct indices, more than [INT_MAX]; the [int] counter has
    wrapped to -2147432674 when the division is made, and the result is the
    sum of the kernel values over that negative number, and not the sum over
    the number of pairs. *)
Theorem asymmetric_counter_overflows :
  exists tr vs,
    compute_decoupled_sum (spike_x (Z.to_nat 46342)) (spike_y (Z.to_nat 46342))
      (total_kernel unit kernel_spike) false
    = (tr, Returned (PrimFloat.div (double_sum vs) (double_of_int (-2147432674))))
    /\ length (spike_x (Z.to_nat 46342)) = Z.to_nat 46342
    /\ length (spike_y (Z.to_nat 46342)) = Z.to_nat 46342
    /\ Forall2 (evaluates kernel_spike (spike_x (Z.to_nat 46342))
                  (spike_y (Z.to_nat 46342))) tr vs
    /\ Z.of_nat (length tr) = 46342 * (46342 - 1)
    /\ double_sum vs = 1%float
    /\ PrimFloat.div (double_sum vs) (double_of_int (-2147432674))
       <> PrimFloat.div (double_sum vs) (double_of_Z (46342 * (46342 - 1))).
Proof.
  destruct (spike_run false (Z.to_nat 46342)) as (Hsum & Hvs & Hrun);
    [rewrite Z2Nat.id by lia; unfold INT_MAX; lia |].
  rewrite Z2Nat.id in Hsum, Hvs, Hrun by lia.
  rewrite pairs_of_false in Hsum, Hvs, Hrun.
  rewrite (off_diagonal_pairs_length 46342) in Hrun by lia.
  replace (wrap_int (46342 * (46342 - 1))) with (-2147432674) in Hrun
    by reflexivity.
  exists (off_diagonal_pairs 46342),
    (map (kernel_value kernel_spike (spike_x (Z.to_nat 46342))
            (spike_y (Z.to_nat 46342))) (off_diagonal_pairs 46342)).
  split; [exact Hrun |].
  split; [unfold spike_x; cbn [length]; rewrite repeat_length; lia |].
  split; [unfold spike_y; cbn [length]; rewrite repeat_length; lia |].
  split; [exact Hvs |].
  split; [apply off_diagonal_pairs_length; lia |].
  split; [exact Hsum |].
  rewrite Hsum. intros E.
  apply (f_equal (fun v => PrimFloat.ltb v 0)) in E. vm_compute in E.
  discriminate E.
Qed.

(** ** The spec's examples and other concrete runs *)

(** C10: on [x = [1,2,3]], [y = [10,20,30]] and the kernel [a + b],
    symmetric mode calls the kernel at exactly the pairs [(0,1)], [(0,2)],
    [(1,2)], in that order, where its values are 21, 31 and 32, and returns
    84 / 3 = 28.0. *)
Theorem example_symmetric_28 (Err : Type) :
  compute_decoupled_sum example_x example_y (total_kernel Err kernel_plus) true
  = ([(0, 1); (0, 2); (1, 2)], Returned 28%float)
  /\ Forall2 (evaluates kernel_plus example_x example_y)
       [(0, 1); (0, 2); (1, 2)] [21; 31; 32]%float
  /\ double_sum [21; 31; 32]%float = 84%float
  /\ PrimFloat.div 84 (double_of_int 3) = 28%float.
Proof.
  split; [vm_compute; reflexivity |].
  split; [| split; vm_compute; reflexivity].
  repeat constructor; eexists; eexists;
    (split; [reflexivity | split; [reflexivity | vm_compute; reflexivity]]).
Qed.

Example example_asymmetric_22 :
  compute_decoupled_sum example_x example_y (total_kernel unit kernel_plus) false
  = ([(0, 1); (0, 2); (1, 0); (1, 2); (2, 0); (2, 1)], Returned 22%float).
Proof. vm_compute. reflexivity. Qed.

(** C1, counterexample: the spec's Example 3, [x = [1]] and [y = [10]]: in
    both modes the call returns, and what it returns is a not-a-number. *)
Lemma single_item_returns_nan :
  compute_decoupled_sum [1%float] [10%float] (total_kernel unit kernel_plus) true
  = ([], Returned nan)
  /\ compute_decoupled_sum [1%float] [10%float] (total_kernel unit kernel_plus) false
     = ([], Returned nan)
  /\ PrimFloat.is_nan nan = true.
Proof. repeat split; vm_compute; reflexivity. Qed.

(** [degenerate_returns_nan] on the one-item collections of Example 3. *)
Lemma degenerate_returns_nan_witness :
  compute_decoupled_sum [1%float] [10%float] (total_kernel unit kernel_plus) true
  = ([], Returned (PrimFloat.div 0 (double_of_int 0)))
  /\ PrimFloat.is_nan (PrimFloat.div 0 (double_of_int 0)) = true.
Proof.
  apply (degenerate_returns_nan [1%float] [10%float]
           (total_kernel unit kernel_plus) true).
  simpl. lia.
Defined.

(** [symmetric_mode_mean] on the collections of Example 1. *)
Lemma symmetric_mode_mean_witness :
  exists tr vs,
    compute_decoupled_sum example_x example_y (total_kernel unit kernel_plus) true
    = (tr, Returned (PrimFloat.div (double_sum vs) (double_of_Z (3 * (3 - 1) / 2))))
    /\ Forall2 (evaluates kernel_plus example_x example_y) tr vs
    /\ NoDup tr
    /\ (forall i j, In (i, j) tr <-> 0 <= i < j /\ j < 3)
    /\ Z.of_nat (length tr) = 3 * (3 - 1) / 2.
Proof.
  apply (symmetric_mode_mean unit kernel_plus example_x example_y 3);
    [reflexivity | reflexivity | lia].
Defined.

(** [asymmetric_mode_mean] on the collections of Example 2. *)
Lemma asymmetric_mode_mean_witness :
  exists tr vs,
    compute_decoupled_sum example_x example_y (total_kernel unit kernel_plus) false
    = (tr, Returned (PrimFloat.div (double_sum vs) (double_of_Z (3 * (3 - 1)))))
    /\ Forall2 (evaluates kernel_plus example_x example_y) tr vs
    /\ NoDup tr
    /\ (forall i j, In (i, j) tr <-> 0 <= i < 3 /\ 0 <= j < 3 /\ i <> j)
    /\ Z.of_nat (length tr) = 3 * (3 - 1).
Proof.
  apply (asymmetric_mode_mean unit kernel_plus example_x example_y 3);
    [reflexivity | reflexivity | lia].
Defined.

(** C4, counterexample.  First the spec's Examples 1 and 2: the kernel
    [a + b] has [K a b = K b a], and on [x = [1,2,3]], [y = [10,20,30]]
    symmetric mode returns 28 and asymmetric mode 22.  Then one collection
    on both sides and a kernel with [K a b = K b a] whose values are [1e16],
    [-1e16] and [1]: symmetric mode returns 1/3 and asymmetric mode 1/6,
    by rounding in the running sum. *)
Lemma symmetric_kernel_means_differ :
  (forall a b, kernel_add a b = kernel_add b a)
  /\ result (compute_decoupled_sum [1; 2; 3] [10; 20; 30]
               (total_kernel unit kernel_add) true) = Returned 28%float
  /\ result (compute_decoupled_sum [1; 2; 3] [10; 20; 30]
               (total_kernel unit kernel_add) false) = Returned 22%float
  /\ (forall a b, kernel_cancel a b = kernel_cancel b a)
  /\ result (compute_decoupled_sum [0; 1; 2] [0; 1; 2]
               (total_kernel unit kernel_cancel) true)
     = Returned (PrimFloat.div 1 3)
  /\ result (compute_decoupled_sum [0; 1; 2] [0; 1; 2]
               (total_kernel unit kernel_cancel) false)
     = Returned (PrimFloat.div 1 6)
  /\ PrimFloat.eqb 28 22 = false
  /\ PrimFloat.eqb (PrimFloat.div 1 3) (PrimFloat.div 1 6) = false.
Proof.
  split; [intros a b; unfold kernel_add; rewrite Z.add_comm; reflexivity |].
  split; [vm_compute; reflexivity |].
  split; [vm_compute; reflexivity |].
  split; [intros a b; unfold kernel_cancel;
          rewrite Z.min_comm, Z.max_comm; reflexivity |].
  repeat split; vm_compute; reflexivity.
Qed.

(** [symmetric_kernel_same_values] on [[1,2,3]] and the kernel [a + b]. *)
Lemma symmetric_kernel_same_values_witness :
  exists vs_sym vs_asym,
    (exists tr,
       compute_decoupled_sum [1; 2; 3] [1; 2; 3] (total_kernel unit kernel_add) true
       = (tr, Returned (PrimFloat.div (double_sum vs_sym)
                (double_of_int (3 * (3 - 1) / 2))))
       /\ Forall2 (evaluates kernel_add [1; 2; 3] [1; 2; 3]) tr vs_sym)
    /\ (exists tr,
       compute_decoupled_sum [1; 2; 3] [1; 2; 3] (total_kernel unit kernel_add) false
       = (tr, Returned (PrimFloat.div (double_sum vs_asym)
                (double_of_int (3 * (3 - 1)))))
       /\ Forall2 (evaluates kernel_add [1; 2; 3] [1; 2; 3]) tr vs_asym)
    /\ Permutation vs_asym (vs_sym ++ vs_sym)
    /\ length vs_asym = (2 * length vs_sym)%nat
    /\ 3 * (3 - 1) = 2 * (3 * (3 - 1) / 2)
    /\ forall phi,
         (exact_mean phi vs_asym (3 * (3 - 1))
          == exact_mean phi vs_sym (3 * (3 - 1) / 2))%Q.
Proof.
  apply (symmetric_kernel_same_values unit kernel_add [1; 2; 3] 3).
  - intros a b. unfold kernel_add. rewrite Z.add_comm. reflexivity.
  - reflexivity.
  - lia.
Defined.

(** C5, counterexample.  With a single item in [x] no call fails: the batch
    stores a not-a-number for each element and returns the full vector.  And
    a kernel failure in batch element 0 and one in batch element 1 end the
    batch with the same failure: it does not say which element failed. *)
Lemma batch_stores_nan_and_hides_index :
  compute_multiple_decoupled_sums [1%float] [[10%float]; [20%float]]
    (total_kernel unit kernel_plus) true
  = ([], Returned [nan; nan])
  /\ result (compute_multiple_decoupled_sums [0; 1; 2] [[0; 99; 2]; [0; 1; 2]]
               kernel_stop_on_99 true)
     = Raised (KernelFailure stop_called)
  /\ result (compute_multiple_decoupled_sums [0; 1; 2] [[0; 1; 2]; [0; 99; 2]]
               kernel_stop_on_99 true)
     = Raised (KernelFailure stop_called).
Proof. repeat split; vm_compute; reflexivity. Qed.

(** [batch_failure_propagates] on a batch whose second element makes the
    kernel stop. *)
Lemma batch_failure_propagates_witness :
  (forall f,
     result (compute_decoupled_sum [0; 1; 2] [0; 99; 2] kernel_stop_on_99 true)
     = Raised f ->
     result (compute_multiple_decoupled_sums [0; 1; 2]
               ([[0; 1; 2]] ++ [0; 99; 2] :: [[5; 6; 7]]) kernel_stop_on_99 true)
     = Raised f
     /\ calls (compute_multiple_decoupled_sums [0; 1; 2]
                 ([[0; 1; 2]] ++ [0; 99; 2] :: [[5; 6; 7]]) kernel_stop_on_99 true)
        = concat (map (fun y' =>
                    calls (compute_decoupled_sum [0; 1; 2] y' kernel_stop_on_99 true))
                  [[0; 1; 2]])
          ++ calls (compute_decoupled_sum [0; 1; 2] [0; 99; 2] kernel_stop_on_99 true))
  /\ ((length [0; 1; 2] < 2)%nat ->
      compute_multiple_decoupled_sums [0; 1; 2]
        ([[0; 1; 2]] ++ [0; 99; 2] :: [[5; 6; 7]]) kernel_stop_on_99 true
      = ([], Returned (repeat nan (length ([[0; 1; 2]] ++ [0; 99; 2] :: [[5; 6; 7]]))))).
Proof.
  apply (batch_failure_propagates [0; 1; 2] [[0; 1; 2]] [0; 99; 2] [[5; 6; 7]]
           kernel_stop_on_99 true).
  - unfold INT_MAX. simpl. lia.
  - intros y' [<- | []]. eexists. vm_compute. reflexivity.
Defined.

(** C6, counterexample: a run whose kernel fails at the index pair [(0, 1)]
    and a run whose kernel fails at [(0, 2)] end with the same failure, the
    kernel's own; it carries no index pair. *)
Lemma kernel_failure_hides_pair :
  compute_decoupled_sum [0; 1; 2] [0; 99; 2] kernel_stop_on_99 true
  = ([(0, 1)], Raised (KernelFailure stop_called))
  /\ compute_decoupled_sum [0; 1; 2] [0; 1; 99] kernel_stop_on_99 true
     = ([(0, 1); (0, 2)], Raised (KernelFailure stop_called)).
Proof. split; vm_compute; reflexivity. Qed.

(** [kernel_failure_aborts] on a run whose kernel stops at the pair [(0, 2)]. *)
Lemma kernel_failure_aborts_witness :
  result (compute_decoupled_sum [0; 1; 2] [0; 1; 99] kernel_stop_on_99 true)
  = Raised (KernelFailure stop_called)
  /\ exists pre rest,
       calls (compute_decoupled_sum [0; 1; 2] [0; 1; 99] kernel_stop_on_99 true)
       = pre ++ [(0, 2)]
       /\ pairs_of true (int_of_size (length [0; 1; 2])) = pre ++ (0, 2) :: rest.
Proof.
  apply (kernel_failure_aborts [0; 1; 2] [0; 1; 99] kernel_stop_on_99 true
           0 2 0 99 stop_called).
  - vm_compute. right. left. reflexivity.
  - reflexivity.
  - reflexivity.
  - reflexivity.
Defined.


Example example_batch :
  compute_multiple_decoupled_sums example_x [example_y; example_ones]
    (total_kernel unit kernel_plus) true
  = ([(0, 1); (0, 2); (1, 2); (0, 1); (0, 2); (1, 2)],
     Returned [28%float; PrimFloat.div 7 3]).
Proof. vm_compute. reflexivity. Qed.

(** [reads_within_length_of_x] on a [y] two items longer than [x]. *)
Lemma reads_within_length_of_x_witness :
  result (compute_decoupled_sum example_x example_y_long
            (total_kernel unit kernel_plus) false) <> Raised OutOfBounds
  /\ Forall (fun p => 0 <= fst p < Z.of_nat (length example_x)
                      /\ 0 <= snd p < Z.of_nat (length example_x))
       (calls (compute_decoupled_sum example_x example_y_long
                 (total_kernel unit kernel_plus) false))
  /\ compute_decoupled_sum example_x (firstn (length example_x) example_y_long)
       (total_kernel unit kernel_plus) false
     = compute_decoupled_sum example_x example_y_long
         (total_kernel unit kernel_plus) false
  /\ (exists rest,
        pairs_of false (int_of_size (length example_x))
        = calls (compute_decoupled_sum example_x example_y_long
                   (total_kernel unit kernel_plus) false) ++ rest).
Proof.
  apply (reads_within_length_of_x example_x example_y_long
           (total_kernel unit kernel_plus) false).
  simpl. lia.
Defined.

(** * Further properties of the two functions *)

(** ** How many kernel calls a run makes *)

Lemma pairs_of_length symmetric n :
  0 <= n -> Z.of_nat (length (pairs_of symmetric n)) = pair_count symmetric n.
Proof.
  intros Hn. destruct symmetric; cbn [pairs_of pair_count].
  - apply upper_pairs_length. exact Hn.
  - apply off_diagonal_pairs_length. exact Hn.
Qed.

(** Whatever [y] and the kernel are, a run on [n] items (an [n] that an
    [int] holds) never calls the kernel more than [n (n - 1) / 2] times in
    symmetric mode and [n (n - 1)] times in asymmetric mode, and a run that
    returns has made exactly that many calls, also where the [int] counter
    can no longer hold the number. *)
Theorem kernel_calls_bounded {Item Err : Type} (x y : list Item)
    (kernel_function : Item -> Item -> kernel_result Err) (symmetric : bool)
    (n : Z) :
  Z.of_nat (length x) = n -> n <= INT_MAX ->
  Z.of_nat (length (calls (compute_decoupled_sum x y kernel_function symmetric)))
  <= pair_count symmetric n
  /\ (forall v,
        result (compute_decoupled_sum x y kernel_function symmetric) = Returned v ->
        Z.of_nat (length (calls (compute_decoupled_sum x y kernel_function symmetric)))
        = pair_count symmetric n).
Proof.
  intros Hn Hmax.
  pose proof (pairs_of_length symmetric n ltac:(lia)) as Hlen.
  destruct (compute_decoupled_sum_prefix x y kernel_function symmetric) as [rest E].
  rewrite int_of_size_id, Hn in E by lia.
  split.
  - rewrite <- Hlen, E, length_app. lia.
  - intros v Hv.
    rewrite (compute_decoupled_sum_returned x y kernel_function symmetric v Hv).
    rewrite int_of_size_id, Hn by lia. exact Hlen.
Qed.

(** [kernel_calls_bounded] on the collections of Example 2. *)
Lemma kernel_calls_bounded_witness :
  Z.of_nat (length (calls (compute_decoupled_sum example_x example_y
                             (total_kernel unit kernel_plus) false)))
  <= pair_count false 3
  /\ (forall v,
        result (compute_decoupled_sum example_x example_y
                  (total_kernel unit kernel_plus) false) = Returned v ->
        Z.of_nat (length (calls (compute_decoupled_sum example_x example_y
                                   (total_kernel unit kernel_plus) false)))
        = pair_count false 3).
Proof.
  apply (kernel_calls_bounded example_x example_y
           (total_kernel unit kernel_plus) false 3);
    [reflexivity | unfold INT_MAX; lia].
Defined.

(** ** What symmetric mode never reads *)

Lemma List_get_tail {A} (a b : A) (l : list A) j :
  1 <= j -> List_get (a :: l) j = List_get (b :: l) j.
Proof.
  intros Hj. unfold List_get. destruct (Z.ltb_spec j 0) as [_ | _]; [reflexivity |].
  replace (Z.to_nat j) with (S (Z.to_nat (j - 1))) by lia. reflexivity.
Qed.

Lemma List_get_front {A} (l : list A) (a b : A) i :
  i < Z.of_nat (length l) -> List_get (l ++ [a]) i = List_get (l ++ [b]) i.
Proof.
  intros Hi. unfold List_get. destruct (Z.ltb_spec i 0) as [_ | Hpos]; [reflexivity |].
  rewrite !nth_error_app1 by lia. reflexivity.
Qed.

(** In symmetric mode the first item of [y] and the last item of [x] never
    reach the kernel: replacing either by any other item changes neither the
    calls made nor the outcome, whatever the kernel is. *)
Theorem symmetric_mode_frame {Item Err : Type} (x y : list Item) (a b : Item)
    (kernel_function : Item -> Item -> kernel_result Err) :
  compute_decoupled_sum x (a :: y) kernel_function true
  = compute_decoupled_sum x (b :: y) kernel_function true
  /\ compute_decoupled_sum (x ++ [a]) y kernel_function true
     = compute_decoupled_sum (x ++ [b]) y kernel_function true.
Proof.
  split.
  - rewrite !compute_decoupled_sum_eq. f_equal. unfold accumulate_all.
    apply foreach_ext. intros p s Hp. apply in_pairs_of in Hp.
    unfold in_mode in Hp. unfold accumulate, call_kernel.
    rewrite (List_get_tail a b y (snd p)) by lia. reflexivity.
  - rewrite !compute_decoupled_sum_eq, !length_app. cbn [length].
    f_equal. unfold accumulate_all.
    apply foreach_ext. intros p s Hp. apply in_pairs_of in Hp.
    unfold in_mode in Hp.
    pose proof (int_of_size_le (length x + 1)) as Hn.
    unfold accumulate, call_kernel.
    rewrite (List_get_front x a b (fst p)) by lia. reflexivity.
Qed.

(** ** Which failure a run surfaces *)

Lemma Forall2_yields_values {Item Err : Type} (x y : list Item)
    (kernel_function : Item -> Item -> kernel_result Err)
    (ps : list call) (vs : list double) :
  Forall2 (yields x y kernel_function) ps vs ->
  forall p, In p ps ->
    exists a b v, List_get x (fst p) = Some a /\ List_get y (snd p) = Some b
                  /\ kernel_function a b = Value v.
Proof.
  intros H p Hp. destruct (Forall2_in_left _ _ _ _ H Hp) as [v Hv].
  unfold yields in Hv.
  destruct (call_kernel_cases x y kernel_function p)
    as [(a & b & v' & Ha & Hb & Hk & _) | [(a & b & e & _ & _ & _ & He)
                                          | [_ Ho]]].
  - exists a, b, v'. auto.
  - rewrite He in Hv. discriminate.
  - rewrite Ho in Hv. discriminate.
Qed.

(** A kernel failure that comes out of a run is the failure of the first
    index pair, in enumeration order, at which the kernel fails: that pair
    is the last call made, and the kernel gave a value at every pair
    visited before it. *)
Theorem first_failure_surfaces {Item Err : Type} (x y : list Item)
    (kernel_function : Item -> Item -> kernel_result Err) (symmetric : bool)
    (e : Err) :
  result (compute_decoupled_sum x y kernel_function symmetric)
  = Raised (KernelFailure e) ->
  exists (pre : list call) (i j : Z) (rest : list call) (a b : Item),
    pairs_of symmetric (int_of_size (length x)) = pre ++ (i, j) :: rest
    /\ calls (compute_decoupled_sum x y kernel_function symmetric) = pre ++ [(i, j)]
    /\ List_get x i = Some a /\ List_get y j = Some b
    /\ kernel_function a b = Fails e
    /\ forall p, In p pre ->
         exists a' b' v, List_get x (fst p) = Some a' /\ List_get y (snd p) = Some b'
                         /\ kernel_function a' b' = Value v.
Proof.
  intros Hres.
  destruct (compute_decoupled_sum_cases x y kernel_function symmetric)
    as [(vs & _ & E) | (pre & p & rest & vs & t & f & E' & Hpre & Hp & _ & E)];
    rewrite E in Hres |- *; cbn [calls result fst snd] in *; [discriminate |].
  inversion Hres; subst f.
  destruct (call_kernel_cases x y kernel_function p)
    as [(a & b & v & _ & _ & _ & Hv) | [(a & b & e' & Ha & Hb & Hk & He)
                                       | [_ Ho]]];
    rewrite Hp in *; try discriminate.
  inversion He; subst. destruct p as [i j]. cbn [fst snd] in *.
  exists pre, i, j, rest, a, b.
  repeat split; try assumption.
  apply (Forall2_yields_values x y kernel_function pre vs Hpre).
Qed.

(** [first_failure_surfaces] on a run whose kernel stops at the pair [(0, 2)]. *)
Lemma first_failure_surfaces_witness :
  exists (pre : list call) (i j : Z) (rest : list call) (a b : Z),
    pairs_of true (int_of_size (length [0; 1; 2])) = pre ++ (i, j) :: rest
    /\ calls (compute_decoupled_sum [0; 1; 2] [0; 1; 99] kernel_stop_on_99 true)
       = pre ++ [(i, j)]
    /\ List_get [0; 1; 2] i = Some a /\ List_get [0; 1; 99] j = Some b
    /\ kernel_stop_on_99 a b = Fails stop_called
    /\ forall p, In p pre ->
         exists a' b' v, List_get [0; 1; 2] (fst p) = Some a'
                         /\ List_get [0; 1; 99] (snd p) = Some b'
                         /\ kernel_stop_on_99 a' b' = Value v.
Proof.
  apply (first_failure_surfaces [0; 1; 2] [0; 1; 99] kernel_stop_on_99 true
           stop_called).
  reflexivity.
Defined.

(** ** The batch as a whole *)

Section BatchOutcome.

Context {Item Err : Type}.
Variables (x : list Item) (kernel_function : Item -> Item -> kernel_result Err)
  (symmetric : bool).

(** The elements of a batch all return, or there is a first one that raises. *)
Lemma elements_return_or_raise (ys : list (list Item)) :
  (exists rs, Forall2 (returns_as x kernel_function symmetric) ys rs)
  \/ (exists before y after rs t f,
        ys = before ++ y :: after
        /\ Forall2 (returns_as x kernel_function symmetric) before rs
        /\ compute_decoupled_sum x y kernel_function symmetric = (t, Raised f)).
Proof.
  induction ys as [| y ys IH].
  - left. exists []. constructor.
  - destruct (compute_decoupled_sum x y kernel_function symmetric)
      as [t [v | f]] eqn:Ey.
    + destruct IH as [[rs Hrs] | (before & y' & after & rs & t' & f & -> & Hrs & Hy')].
      * left. exists ((t, v) :: rs). constructor; [exact Ey | exact Hrs].
      * right. exists (y :: before), y', after, ((t, v) :: rs), t', f.
        repeat split; try assumption. constructor; [exact Ey | exact Hrs].
    + right. exists [], y, ys, [], t, f. repeat split; [constructor | exact Ey].
Qed.

Lemma returns_as_returns (ys : list (list Item)) rs :
  Forall2 (returns_as x kernel_function symmetric) ys rs ->
  forall y, In y ys ->
    exists v, result (compute_decoupled_sum x y kernel_function symmetric)
              = Returned v.
Proof.
  intros H y Hy. destruct (Forall2_in_left _ _ _ _ H Hy) as [r Hr].
  unfold returns_as in Hr. exists (snd r). rewrite Hr. reflexivity.
Qed.

(** A batch over [ys1 ++ ys2] (of a length an [int] holds) does what the
    batch over [ys1] followed by the batch over [ys2] does: the same kernel
    calls in the same order, the two result vectors put end to end, and the
    first failure of either, the second part not being run when the first
    part raises. *)
Theorem batch_of_concatenation (ys1 ys2 : list (list Item)) :
  Z.of_nat (length (ys1 ++ ys2)) <= INT_MAX ->
  compute_multiple_decoupled_sums x (ys1 ++ ys2) kernel_function symmetric
  = (r1 <- compute_multiple_decoupled_sums x ys1 kernel_function symmetric ;;
     r2 <- compute_multiple_decoupled_sums x ys2 kernel_function symmetric ;;
     ret (r1 ++ r2)).
Proof.
  intros Hmax. rewrite length_app in Hmax.
  destruct (elements_return_or_raise ys1)
    as [[rs1 H1] | (b1 & y1 & a1 & rs1 & t1 & f1 & -> & H1 & Hy1)].
  - rewrite (batch_returns x kernel_function symmetric ys1 rs1) by (lia || exact H1).
    rewrite bind_returned.
    destruct (elements_return_or_raise ys2)
      as [[rs2 H2] | (b2 & y2 & a2 & rs2 & t2 & f2 & -> & H2 & Hy2)].
    + rewrite (batch_returns x kernel_function symmetric ys2 rs2) by (lia || exact H2).
      rewrite (batch_returns x kernel_function symmetric (ys1 ++ ys2) (rs1 ++ rs2))
        by (rewrite ?length_app; lia || apply Forall2_app; assumption).
      cbn [bind ret calls result fst snd].
      rewrite !map_app, concat_app, app_nil_r. reflexivity.
    + rewrite (batch_raises x kernel_function symmetric b2 rs2 y2 a2 t2 f2)
        by (lia || assumption).
      rewrite app_assoc.
      rewrite (batch_raises x kernel_function symmetric (ys1 ++ b2) (rs1 ++ rs2)
                 y2 a2 t2 f2)
        by first [assumption | apply Forall2_app; assumption
                 | rewrite <- app_assoc, length_app; lia].
      cbn [bind calls result fst snd].
      rewrite map_app, concat_app, app_assoc. reflexivity.
  - rewrite <- app_assoc. cbn [app].
    rewrite (batch_raises x kernel_function symmetric b1 rs1 y1 (a1 ++ ys2) t1 f1)
      by first [assumption | rewrite !length_app in *; cbn [length] in *;
                              rewrite ?length_app; lia].
    rewrite (batch_raises x kernel_function symmetric b1 rs1 y1 a1 t1 f1)
      by first [assumption | lia].
    reflexivity.
Qed.

End BatchOutcome.

(** For a batch whose length an [int] holds: the batch raises nothing of
    its own.  A failure that comes out of it is the failure of the first
    element whose single call raises, every element before that one having
    returned; and when the batch returns, the single call of every element
    returns. *)
Theorem batch_outcome_from_elements {Item Err : Type} (x : list Item)
    (y_list : list (list Item))
    (kernel_function : Item -> Item -> kernel_result Err) (symmetric : bool) :
  Z.of_nat (length y_list) <= INT_MAX ->
  (forall f,
     result (compute_multiple_decoupled_sums x y_list kernel_function symmetric)
     = Raised f ->
     exists before y after,
       y_list = before ++ y :: after
       /\ result (compute_decoupled_sum x y kernel_function symmetric) = Raised f
       /\ forall y', In y' before ->
            exists v, result (compute_decoupled_sum x y' kernel_function symmetric)
                      = Returned v)
  /\ (forall results,
        result (compute_multiple_decoupled_sums x y_list kernel_function symmetric)
        = Returned results ->
        forall y, In y y_list ->
          exists v, result (compute_decoupled_sum x y kernel_function symmetric)
                    = Returned v).
Proof.
  intros Hmax.
  destruct (elements_return_or_raise x kernel_function symmetric y_list)
    as [[rs Hrs] | (before & y & after & rs & t & f & E & Hrs & Hy)].
  - rewrite (batch_returns x kernel_function symmetric y_list rs Hmax Hrs).
    cbn [result snd]. split; [intros f Hf; discriminate |].
    intros _ _. apply (returns_as_returns x kernel_function symmetric y_list rs Hrs).
  - subst y_list.
    rewrite (batch_raises x kernel_function symmetric before rs y after t f
               Hmax Hrs Hy).
    cbn [result snd]. split; [| intros results Hr; discriminate].
    intros f' Hf. inversion Hf; subst f'.
    exists before, y, after. split; [reflexivity |]. split.
    + rewrite Hy. reflexivity.
    + apply (returns_as_returns x kernel_function symmetric before rs Hrs).
Qed.

(** [batch_outcome_from_elements] on a batch whose second element makes the
    kernel stop. *)
Lemma batch_outcome_from_elements_witness :
  (forall f,
     result (compute_multiple_decoupled_sums [0; 1; 2] [[0; 1; 2]; [0; 99; 2]]
               kernel_stop_on_99 true) = Raised f ->
     exists before y after,
       [[0; 1; 2]; [0; 99; 2]] = before ++ y :: after
       /\ result (compute_decoupled_sum [0; 1; 2] y kernel_stop_on_99 true) = Raised f
       /\ forall y', In y' before ->
            exists v, result (compute_decoupled_sum [0; 1; 2] y' kernel_stop_on_99 true)
                      = Returned v)
  /\ (forall results,
        result (compute_multiple_decoupled_sums [0; 1; 2] [[0; 1; 2]; [0; 99; 2]]
                  kernel_stop_on_99 true) = Returned results ->
        forall y, In y [[0; 1; 2]; [0; 99; 2]] ->
          exists v, result (compute_decoupled_sum [0; 1; 2] y kernel_stop_on_99 true)
                    = Returned v).
Proof.
  apply (batch_outcome_from_elements [0; 1; 2] [[0; 1; 2]; [0; 99; 2]]
           kernel_stop_on_99 true).
  unfold INT_MAX. simpl. lia.
Defined.

(** [batch_of_concatenation] on the batch of Example 4, split in two. *)
Lemma batch_of_concatenation_witness :
  compute_multiple_decoupled_sums example_x ([example_y] ++ [example_ones])
    (total_kernel unit kernel_plus) true
  = (r1 <- compute_multiple_decoupled_sums example_x [example_y]
             (total_kernel unit kernel_plus) true ;;
     r2 <- compute_multiple_decoupled_sums example_x [example_ones]
             (total_kernel unit kernel_plus) true ;;
     ret (r1 ++ r2)).
Proof.
  apply (batch_of_concatenation example_x (total_kernel unit kernel_plus) true
           [example_y] [example_ones]).
  unfold INT_MAX. simpl. lia.
Defined.

(** ** The two triangles of asymmetric mode *)

Lemma kernel_value_transpose {Item} (K : Item -> Item -> double)
    (x y : list Item) (p : call) :
  kernel_value (transpose K) y x p = kernel_value K x y (swap p).
Proof.
  unfold kernel_value, transpose, swap. cbn [fst snd].
  destruct (List_get y (fst p)) as [a |], (List_get x (snd p)) as [b |];
    reflexivity.
Qed.

(** On [x] and [y] of equal length and a kernel that never raises,
    asymmetric mode evaluates the kernel values of two symmetric runs taken
    together: the run on [x], [y] and [K] (the pairs [i < j]) and the run on
    [y], [x] and the kernel with its arguments exchanged (the pairs
    [j < i]).  Its values are a rearrangement of theirs, each result being
    the left-to-right sum of its values over its counter. *)
Theorem asymmetric_is_both_triangles {Item : Type} (Err : Type)
    (K : Item -> Item -> double) (x y : list Item) :
  length x = length y ->
  exists vs_upper vs_lower vs_all,
    (exists tr,
       compute_decoupled_sum x y (total_kernel Err K) true
       = (tr, Returned (PrimFloat.div (double_sum vs_upper)
                (double_of_int (wrap_int (Z.of_nat (length vs_upper))))))
       /\ Forall2 (evaluates K x y) tr vs_upper)
    /\ (exists tr,
       compute_decoupled_sum y x (total_kernel Err (transpose K)) true
       = (tr, Returned (PrimFloat.div (double_sum vs_lower)
                (double_of_int (wrap_int (Z.of_nat (length vs_lower))))))
       /\ Forall2 (evaluates (transpose K) y x) tr vs_lower)
    /\ (exists tr,
       compute_decoupled_sum x y (total_kernel Err K) false
       = (tr, Returned (PrimFloat.div (double_sum vs_all)
                (double_of_int (wrap_int (Z.of_nat (length vs_all))))))
       /\ Forall2 (evaluates K x y) tr vs_all)
    /\ Permutation vs_all (vs_upper ++ vs_lower)
    /\ length vs_all = (length vs_upper + length vs_lower)%nat.
Proof.
  intros Hlen.
  destruct (compute_decoupled_sum_total Err K x y true) as [Hu Hru]; [lia |].
  destruct (compute_decoupled_sum_total Err (transpose K) y x true) as [Hl Hrl];
    [lia |].
  destruct (compute_decoupled_sum_total Err K x y false) as [Ha Hra]; [lia |].
  rewrite <- Hlen in Hl, Hrl.
  set (n := int_of_size (length x)) in *. cbn [pairs_of] in *.
  assert (Hperm : Permutation (map (kernel_value K x y) (off_diagonal_pairs n))
                    (map (kernel_value K x y) (upper_pairs n)
                     ++ map (kernel_value (transpose K) y x) (upper_pairs n))).
  { rewrite (Permutation_map _ (off_diagonal_upper_twice n)), map_app, map_map.
    rewrite (map_ext (kernel_value (transpose K) y x)
               (fun p => kernel_value K x y (swap p)))
      by (intros p; apply kernel_value_transpose).
    reflexivity. }
  exists (map (kernel_value K x y) (upper_pairs n)),
         (map (kernel_value (transpose K) y x) (upper_pairs n)),
         (map (kernel_value K x y) (off_diagonal_pairs n)).
  split; [| split; [| split; [| split]]].
  - exists (upper_pairs n). rewrite length_map. split; assumption.
  - exists (upper_pairs n). rewrite length_map. split; assumption.
  - exists (off_diagonal_pairs n). rewrite length_map. split; assumption.
  - exact Hperm.
  - rewrite (Permutation_length Hperm), length_app. reflexivity.
Qed.

(** [asymmetric_is_both_triangles] on the collections of Examples 1 and 2. *)
Lemma asymmetric_is_both_triangles_witness :
  exists vs_upper vs_lower vs_all,
    (exists tr,
       compute_decoupled_sum example_x example_y (total_kernel unit kernel_plus) true
       = (tr, Returned (PrimFloat.div (double_sum vs_upper)
                (double_of_int (wrap_int (Z.of_nat (length vs_upper))))))
       /\ Forall2 (evaluates kernel_plus example_x example_y) tr vs_upper)
    /\ (exists tr,
       compute_decoupled_sum example_y example_x
         (total_kernel unit (transpose kernel_plus)) true
       = (tr, Returned (PrimFloat.div (double_sum vs_lower)
                (double_of_int (wrap_int (Z.of_nat (length vs_lower))))))
       /\ Forall2 (evaluates (transpose kernel_plus) example_y example_x) tr vs_lower)
    /\ (exists tr,
       compute_decoupled_sum example_x example_y (total_kernel unit kernel_plus) false
       = (tr, Returned (PrimFloat.div (double_sum vs_all)
                (double_of_int (wrap_int (Z.of_nat (length vs_all))))))
       /\ Forall2 (evaluates kernel_plus example_x example_y) tr vs_all)
    /\ Permutation vs_all (vs_upper ++ vs_lower)
    /\ length vs_all = (length vs_upper + length vs_lower)%nat.
Proof.
  apply (asymmetric_is_both_triangles unit kernel_plus example_x example_y).
  reflexivity.
Defined.
